(** * code_lens_llm: signature extraction and empty-item pruning

    A shallow embedding of [code_lens_llm.py]: the signature renderer
    [get_function_signature], the module extractor
    [extract_signatures_with_ast] with its [REPORT_EMPTY_ITEMS] pruning
    block, and the batch driver [extract_signatures_with_ast_method].

    Python exceptions are values of [result]; Python dicts whose order is
    written to the JSON report are insertion-ordered association lists;
    the integer-keyed [defaults] table of the renderer is a [gmap]. *)

From stdpp Require Import base option list strings gmap.
From Stdlib Require Import ZArith Lia.

Set Warnings "-clear-no-such-hyp".

Local Open Scope Z_scope.
Local Open Scope string_scope.
Local Open Scope list_scope.

(** ** Exceptions *)

Inductive exn : Type :=
| SyntaxError      (* raised by ast.parse on malformed source *)
| KeyError         (* d[k] or del d[k] on a missing key *)
| ValueError       (* raised by os.path.relpath *)
| OtherException.  (* any other exception *)

Inductive result (A : Type) : Type :=
| Ok (a : A)
| Raise (e : exn).
Arguments Ok {A} a.
Arguments Raise {A} e.

#[global] Instance result_ret : MRet result := λ A a, Ok a.
#[global] Instance result_bind : MBind result := λ A B f m,
  match m with
  | Ok a => f a
  | Raise e => Raise e
  end.

(** [try: body except: handler] with a handler that catches everything. *)
Definition try_except {A} (body : result A) (handler : exn → result A) : result A :=
  match body with
  | Ok a => Ok a
  | Raise e => handler e
  end.

(** A [for] loop whose body may raise: the state is threaded left to right
    and the first exception leaves the loop. *)
Fixpoint for_each {A S} (body : S → A → result S) (l : list A) (s : S) : result S :=
  match l with
  | [] => Ok s
  | x :: l' => s' ← body s x; for_each body l' s'
  end.

(** [enumerate(l)], counting from [n]. *)
Fixpoint enumerate_from {A} (n : Z) (l : list A) : list (Z * A) :=
  match l with
  | [] => []
  | x :: l' => (n, x) :: enumerate_from (n + 1) l'
  end.
Definition enumerate {A} (l : list A) : list (Z * A) := enumerate_from 0 l.

(** ** Python dicts with observable insertion order *)

Abbreviation dict K V := (list (K * V)) (only parsing).

Section dict_ops.
Context {K V : Type} `{EqDecision K}.

Definition dict_keys (d : dict K V) : list K := d.*1.

(** [d.get(k)] *)
Fixpoint dict_get (k : K) (d : dict K V) : option V :=
  match d with
  | [] => None
  | (k', v) :: d' => if decide (k = k') then Some v else dict_get k d'
  end.

(** [d[k] = v]: an existing key keeps its place, a new key goes last. *)
Fixpoint dict_set (k : K) (v : V) (d : dict K V) : dict K V :=
  match d with
  | [] => [(k, v)]
  | (k', v') :: d' =>
      if decide (k = k') then (k, v) :: d' else (k', v') :: dict_set k v d'
  end.

(** [del d[k]]: raises KeyError when the key is missing. *)
Fixpoint dict_del (k : K) (d : dict K V) : result (dict K V) :=
  match d with
  | [] => Raise KeyError
  | (k', v') :: d' =>
      if decide (k = k') then Ok d'
      else d'' ← dict_del k d'; mret ((k', v') :: d'')
  end.

(** Truth value of a dict: [not d] holds for the empty dict only. *)
Definition dict_is_empty (d : dict K V) : bool :=
  match d with [] => true | _ => false end.

(** Keys are unique in every dict Python can build. *)
Definition dict_wf (d : dict K V) : Prop := NoDup (dict_keys d).
End dict_ops.

(** ** The part of the [ast] module the program relies on *)

Class PyAst : Type := {
  expr : Type;                       (* expression nodes *)
  has_unparse : bool;                (* hasattr(ast, 'unparse') *)
  unparse : expr → result string;    (* ast.unparse(e), which may raise *)
  constant_str : expr → option string;
    (* the value of a Constant node that holds a str, None for others *)
  cleandoc : string → string         (* inspect.cleandoc *)
}.

Section ast.
Context `{PyAst}.

(** [ast.arg] *)
Record ast_arg : Type := {
  arg : string;
  annotation : option expr
}.

(** [ast.arguments] *)
Record arguments : Type := {
  posonlyargs : list ast_arg;
  args : list ast_arg;
  vararg : option ast_arg;
  kwonlyargs : list ast_arg;
  kw_defaults : list (option expr);
  kwarg : option ast_arg;
  defaults : list expr
}.

(** Statements: the three declaration kinds the extractor looks for, the
    expression statement (a docstring is one), and every other kind with
    whatever statements it nests. *)
#[warnings="-register-all"]
Inductive stmt : Type :=
| FunctionDef (name : string) (fargs : arguments) (body : list stmt)
              (returns : option expr)
| AsyncFunctionDef (name : string) (fargs : arguments) (body : list stmt)
                   (returns : option expr)
| ClassDef (name : string) (body : list stmt)
| Expr (value : expr)
| OtherStmt (children : list stmt).

(** [ast.get_docstring(node)] on the body of a function or class node. *)
Definition get_docstring (body : list stmt) : option string :=
  match body with
  | Expr value :: _ =>
      match constant_str value with
      | Some text => Some (cleandoc text)
      | None => None
      end
  | _ => None
  end.

(** ** get_function_signature *)

(** The guarded [ast.unparse] call, with its bare [except:]. *)
Definition try_unparse (e : expr) : result string :=
  try_except (if has_unparse then unparse e else Ok "...")
             (λ _, Ok "...").

(** The dict comprehension building [defaults]. *)
Definition defaults_table (func_args : arguments) : gmap Z expr :=
  foldl (λ (m : gmap Z expr) '(i, default),
           <[Z.of_nat (length (args func_args))
             - Z.of_nat (length (defaults func_args)) + i := default]> m)
        ∅ (enumerate (defaults func_args)).

(** Body of the loop over [enumerate(func_node.args.args)]. *)
Definition positional_step (defaults : gmap Z expr) (acc : list string)
    (ia : Z * ast_arg) : result (list string) :=
  let '(i, a) := ia in
  let arg_str := arg a in
  arg_str ← match defaults !! i with
            | Some d =>
                default_value ← try_unparse d;
                mret (arg_str +:+ "=" +:+ default_value)
            | None => mret arg_str
            end;
  arg_str ← match annotation a with
            | Some t =>
                ann ← try_unparse t;
                mret (arg_str +:+ ": " +:+ ann)
            | None => mret arg_str
            end;
  mret (acc ++ [arg_str]).

(** The [*args] / [**kwargs] blocks; [stars] is ["*"] or ["**"]. *)
Definition variadic_step (stars : string) (v : option ast_arg)
    (acc : list string) : result (list string) :=
  match v with
  | Some a =>
      let name := arg a in
      name ← match annotation a with
             | Some t =>
                 ann ← try_unparse t;
                 mret (name +:+ ": " +:+ ann)
             | None => mret name
             end;
      mret (acc ++ [stars +:+ name])
  | None => mret acc
  end.

(** The list [args] as it stands when it is joined. *)
Definition signature_entries (func_args : arguments) : result (list string) :=
  let defaults := defaults_table func_args in
  acc ← for_each (positional_step defaults) (enumerate (args func_args)) [];
  acc ← variadic_step "*" (vararg func_args) acc;
  variadic_step "**" (kwarg func_args) acc.

Definition get_function_signature (func_args : arguments)
    (func_returns : option expr) (is_async : bool) : result string :=
  entries ← signature_entries func_args;
  let signature := "(" +:+ String.concat ", " entries +:+ ")" in
  signature ← match func_returns with
              | Some r =>
                  return_annotation ← try_unparse r;
                  mret (signature +:+ " -> " +:+ return_annotation)
              | None => mret signature
              end;
  mret (if is_async then "async " +:+ signature else signature).
End ast.

(** ** The extracted report

    Each record is a Python dict with a fixed set of possible keys; a
    field that is [None] is a key that is absent.  [func_info] is
    [{'signature': .., 'docstring': ..}], [class_entry] is
    [{'methods': .., 'docstring': ..}] (its 'docstring' key is the field
    [class_docstring]) and [module_info] is
    [{'functions': .., 'classes': ..}]. *)

Record func_info : Type := {
  signature : option string;
  docstring : option string
}.

Record class_entry : Type := {
  methods : option (dict string func_info);
  class_docstring : option string
}.

Record module_info : Type := {
  functions : option (dict string func_info);
  classes : option (dict string class_entry)
}.

(** [d[key]] on a record field: KeyError when the key is absent. *)
Definition getitem {V} (field : option V) : result V :=
  match field with
  | Some v => Ok v
  | None => Raise KeyError
  end.

(** Truth values: a dict is false exactly when it has no key. *)
Definition func_info_is_empty (fi : func_info) : bool :=
  match signature fi, docstring fi with
  | None, None => true
  | _, _ => false
  end.

Definition class_entry_is_empty (ce : class_entry) : bool :=
  match methods ce, class_docstring ce with
  | None, None => true
  | _, _ => false
  end.

Definition module_info_is_empty (mi : module_info) : bool :=
  match functions mi, classes mi with
  | None, None => true
  | _, _ => false
  end.

(** The value [{}] returned for a file that cannot be parsed. *)
Definition empty_module_info : module_info :=
  {| functions := None; classes := None |}.

(** ** The REPORT_EMPTY_ITEMS block of extract_signatures_with_ast *)

(** [if 'docstring' in info and not info['docstring']: del info['docstring']] *)
Definition del_empty_docstring (fi : func_info) : func_info :=
  match docstring fi with
  | Some "" => {| signature := signature fi; docstring := None |}
  | _ => fi
  end.

(** Body of the loops over [list(d.items())] for functions and methods.
    The loop variable is the object stored in [d] under [name], so its
    mutation is a write at that key. *)
Definition prune_callable_step (d : dict string func_info)
    (item : string * func_info) : result (dict string func_info) :=
  let '(name, info) := item in
  let info := del_empty_docstring info in
  let d := dict_set name info d in
  if func_info_is_empty info then dict_del name d else mret d.

(** Body of the loop over [list(module_info.get('classes', {}).items())]. *)
Definition prune_class_step (d : dict string class_entry)
    (item : string * class_entry) : result (dict string class_entry) :=
  let '(class_name, class_details) := item in
  let class_details :=
    match class_docstring class_details with
    | Some "" => {| methods := methods class_details; class_docstring := None |}
    | _ => class_details
    end in
  class_details ←
    match methods class_details with
    | Some ms =>
        ms' ← for_each prune_callable_step ms ms;
        mret {| methods := Some ms';
                class_docstring := class_docstring class_details |}
    | None => mret class_details
    end;
  let class_details :=
    match methods class_details with
    | Some [] => {| methods := None;
                    class_docstring := class_docstring class_details |}
    | _ => class_details
    end in
  let d := dict_set class_name class_details d in
  if class_entry_is_empty class_details then dict_del class_name d else mret d.

(** Lines 91-125, in the order the statements are written. *)
Definition prune_empty_items (mi : module_info) : result module_info :=
  fs ← getitem (functions mi);
  let mi := if dict_is_empty fs
            then {| functions := None; classes := classes mi |} else mi in
  cs ← getitem (classes mi);
  let mi := if dict_is_empty cs
            then {| functions := functions mi; classes := None |} else mi in
  mi ← match functions mi with
       | Some fs =>
           fs' ← for_each prune_callable_step fs fs;
           mret {| functions := Some fs'; classes := classes mi |}
       | None => mret mi
       end;
  match classes mi with
  | Some cs =>
      cs' ← for_each prune_class_step cs cs;
      mret {| functions := functions mi; classes := Some cs' |}
  | None => mret mi
  end.

(** ** extract_signatures_with_ast *)

Section extract.
Context `{PyAst}.

(** [{'signature': signature}], plus the docstring when asked for. *)
Definition build_info (fargs : arguments) (returns : option expr)
    (is_async : bool) (body : list stmt) (include_docstrings : bool)
    : result func_info :=
  sig ← get_function_signature fargs returns is_async;
  mret {| signature := Some sig;
          docstring := if include_docstrings
                       then Some (default "" (get_docstring body))
                       else None |}.

(** Body of the loop over a class body. *)
Definition class_item_step (include_docstrings : bool)
    (class_info : dict string func_info) (class_item : stmt)
    : result (dict string func_info) :=
  match class_item with
  | FunctionDef name fargs body returns =>
      method_info ← build_info fargs returns false body include_docstrings;
      mret (dict_set name method_info class_info)
  | AsyncFunctionDef name fargs body returns =>
      method_info ← build_info fargs returns true body include_docstrings;
      mret (dict_set name method_info class_info)
  | _ => mret class_info
  end.

(** Body of the loop over [node.body]. *)
Definition module_item_step (include_docstrings : bool)
    (mi : module_info) (item : stmt) : result module_info :=
  match item with
  | FunctionDef name fargs body returns =>
      info ← build_info fargs returns false body include_docstrings;
      fs ← getitem (functions mi);
      mret {| functions := Some (dict_set name info fs);
              classes := classes mi |}
  | AsyncFunctionDef name fargs body returns =>
      info ← build_info fargs returns true body include_docstrings;
      fs ← getitem (functions mi);
      mret {| functions := Some (dict_set name info fs);
              classes := classes mi |}
  | ClassDef name body =>
      let class_docstring :=
        if include_docstrings then get_docstring body else None in
      class_info ← for_each (class_item_step include_docstrings) body [];
      let class_entry :=
        {| methods := Some class_info;
           class_docstring :=
             if include_docstrings
             then Some (default "" class_docstring) else None |} in
      cs ← getitem (classes mi);
      mret {| functions := functions mi;
              classes := Some (dict_set name class_entry cs) |}
  | _ => mret mi
  end.

(** Everything after the parse: the traversal and the pruning block. *)
Definition extract_module (REPORT_EMPTY_ITEMS : bool) (body : list stmt)
    (include_docstrings : bool) : result module_info :=
  mi ← for_each (module_item_step include_docstrings) body
         {| functions := Some []; classes := Some [] |};
  if REPORT_EMPTY_ITEMS then prune_empty_items mi else mret mi.

(** The file system and parser as the program sees them. *)
Class Codebase : Type := {
  parse_file : string → result (list stmt);
    (* open, read and ast.parse a path: the module body, or what was raised *)
  relpath : string → string → result string
    (* os.path.relpath(path, start): raises ValueError on an empty path and,
       on Windows, when path and start are on different drives *)
}.
Context `{Codebase}.

Definition extract_signatures_with_ast (REPORT_EMPTY_ITEMS : bool)
    (file_path : string) (include_docstrings : bool) : result module_info :=
  match parse_file file_path with
  | Raise SyntaxError => Ok empty_module_info
  | Raise _ => Ok empty_module_info
  | Ok body => extract_module REPORT_EMPTY_ITEMS body include_docstrings
  end.

(** ** extract_signatures_with_ast_method *)

Definition report_step (REPORT_EMPTY_ITEMS : bool) (codebase_path : string)
    (include_docstrings : bool) (report : dict string module_info)
    (file_path : string) : result (dict string module_info) :=
  signatures ← extract_signatures_with_ast REPORT_EMPTY_ITEMS file_path
                 include_docstrings;
  if negb (module_info_is_empty signatures) || negb REPORT_EMPTY_ITEMS then
    relative_path ← relpath file_path codebase_path;
    mret (dict_set relative_path signatures report)
  else mret report.

Definition extract_signatures_with_ast_method (REPORT_EMPTY_ITEMS : bool)
    (codebase_path : string) (python_files : list string)
    (include_docstrings : bool) : result (dict string module_info) :=
  for_each (report_step REPORT_EMPTY_ITEMS codebase_path include_docstrings)
           python_files [].
End extract.

(** ** What the claims compare the code with *)

Section reference.
Context `{PyAst}.

(** The text an expression contributes: its source form, or the
    placeholder when that is unavailable. *)
Definition expr_text (e : expr) : string :=
  if has_unparse then
    match unparse e with
    | Ok s => s
    | Raise _ => "..."
    end
  else "...".


Definition annotation_suffix (a : ast_arg) : string :=
  match annotation a with
  | Some t => ": " +:+ expr_text t
  | None => ""
  end.

Definition default_suffix (d : option expr) : string :=
  match d with
  | Some d => "=" +:+ expr_text d
  | None => ""
  end.

Definition variadic_entry (stars : string) (v : option ast_arg) : list string :=
  match v with
  | Some a => [stars +:+ arg a +:+ annotation_suffix a]
  | None => []
  end.

Definition variadic_entries (func_args : arguments) : list string :=
  variadic_entry "*" (vararg func_args) ++ variadic_entry "**" (kwarg func_args).

Definition return_suffix (func_returns : option expr) : string :=
  match func_returns with
  | Some r => " -> " +:+ expr_text r
  | None => ""
  end.

Definition async_prefix (is_async : bool) : string :=
  if is_async then "async " else "".

(** The signature text built from a finished list of entries. *)
Definition signature_text (entries : list string)
    (func_returns : option expr) (is_async : bool) : string :=
  async_prefix is_async +:+ "(" +:+ String.concat ", " entries +:+ ")"
    +:+ return_suffix func_returns.


(** The default the renderer looks up for [args[j]]. *)
Definition rendered_default (func_args : arguments) (j : nat) : option expr :=
  defaults_table func_args !! Z.of_nat j.

(** One positional entry: name, then default, then annotation. *)
Definition positional_entry (d : option expr) (a : ast_arg) : string :=
  arg a +:+ default_suffix d +:+ annotation_suffix a.

Definition positional_entries (func_args : arguments) : list string :=
  imap (λ j a, positional_entry (rendered_default func_args j) a)
       (args func_args).
End reference.

(** ** A concrete [ast] and a concrete code base, for worked examples *)

Module Sample.
Inductive sexpr : Type :=
| Name (id : string)
| Num (digits : string)
| Str (s : string)
| Opaque.

Definition sunparse (e : sexpr) : result string :=
  match e with
  | Name id => Ok id
  | Num digits => Ok digits
  | Str s => Ok ("'" +:+ s +:+ "'")
  | Opaque => Raise OtherException
  end.

Definition ast : PyAst :=
  {| expr := sexpr;
     has_unparse := true;
     unparse := sunparse;
     constant_str e := match e with Str s => Some s | _ => None end;
     cleandoc s := s |}.

Definition plain (name : string) : @ast_arg ast :=
  {| arg := name; annotation := None |}.

Definition typed (name ty : string) : @ast_arg ast :=
  {| arg := name; annotation := Some (Name ty : @expr ast) |}.

Definition params (args : list (@ast_arg ast)) (defaults : list sexpr)
    : @arguments ast :=
  {| posonlyargs := []; args := args; vararg := None; kwonlyargs := [];
     kw_defaults := []; kwarg := None; defaults := defaults |}.

(** [def f(a, b=2)] *)
Definition f_args : @arguments ast := params [plain "a"; plain "b"] [Num "2"].

(** [def k(a, b: int = 2)] *)
Definition k_args : @arguments ast :=
  params [plain "a"; typed "b" "int"] [Num "2"].


(** [class A: pass] *)
Definition class_A : @stmt ast := ClassDef "A" [OtherStmt []].

(** [def f(): pass] *)
Definition def_f : @stmt ast := FunctionDef "f" (params [] []) [OtherStmt []] None.

(** What is left of [s] after [prefix], if [s] starts with it. *)
Fixpoint strip_prefix (prefix s : string) : option string :=
  match prefix, s with
  | EmptyString, _ => Some s
  | String a prefix', String b s' =>
      if Ascii.eqb a b then strip_prefix prefix' s' else None
  | String _ _, EmptyString => None
  end.

(** [os.path.relpath] on the paths of the samples, where [start] is ["."]
    or one directory name: the empty path is refused with ValueError, a
    path is relative to ["."] as it stands, a path under [start] loses
    [start] and the separator, and another path is reached through the
    parent of [start]. *)
Definition relpath_under (path start : string) : result string :=
  if decide (path = "") then Raise ValueError
  else if decide (start = ".") then Ok path
  else match strip_prefix (start +:+ "/") path with
       | Some rest => Ok rest
       | None => Ok ("../" +:+ path)
       end.

(** Three files: one that does not parse and two that do. *)
Definition codebase : @Codebase ast :=
  {| parse_file path :=
       if decide (path = "bad.py") then Raise SyntaxError
       else if decide (path = "a.py") then Ok [class_A; def_f]
       else Ok [def_f];
     relpath := relpath_under |}.
End Sample.

(** ** The pruning loops as list transformations *)

(** What a loop over [list(d.items())] that cleans each value and deletes
    the entries left empty makes of [d]. *)
Definition prune_items {V} (clean : V → V) (is_empty : V → bool)
    (d : dict string V) : dict string V :=
  omap (λ '(k, v), if is_empty (clean v) then None else Some (k, clean v)) d.

Definition clean_callables (d : dict string func_info) : dict string func_info :=
  prune_items del_empty_docstring func_info_is_empty d.

Definition clean_class (ce : class_entry) : class_entry :=
  let doc := match class_docstring ce with
             | Some "" => None
             | other => other
             end in
  match methods ce with
  | Some ms =>
      match clean_callables ms with
      | [] => {| methods := None; class_docstring := doc |}
      | ms' => {| methods := Some ms'; class_docstring := doc |}
      end
  | None => {| methods := None; class_docstring := doc |}
  end.

Definition clean_classes (d : dict string class_entry) : dict string class_entry :=
  prune_items clean_class class_entry_is_empty d.

(** Every dict inside a report has unique keys. *)
Definition wf_class (ce : class_entry) : Prop :=
  ∀ ms, methods ce = Some ms → dict_wf ms.

Definition wf_module (mi : module_info) : Prop :=
  (∀ fs, functions mi = Some fs → dict_wf fs) ∧
  (∀ cs, classes mi = Some cs → dict_wf cs ∧ Forall (λ kv, wf_class kv.2) cs).

(** ** The two depths the extractor looks at *)

Section shallow.
Context `{PyAst}.







End shallow.

(** ** get_python_files and main *)

(** [s.endswith(suffix)] *)
Fixpoint endswith (s suffix : string) : bool :=
  if String.eqb s suffix then true
  else match s with
       | EmptyString => false
       | String _ s' => endswith s' suffix
       end.

(** The directory tree and the output file as the program sees them. *)
Class FileTree : Type := {
  isdir : string → bool;               (* os.path.isdir *)
  walk : string → list (string * list string * list string);
    (* the (root, dirs, files) triples os.walk yields, in order *)
  path_join : string → string → string; (* os.path.join *)
  write_json : string → dict string module_info → result unit
    (* open the path for writing and json.dump the document into it *)
}.

(** The two configuration constants. *)
Definition OMIT_DOCSTRINGS : bool := false.
Definition REPORT_EMPTY_ITEMS : bool := true.

(** How a run of [main] ends: [sys.exit(code)], a normal return after the
    document was written to the output path, or an exception nobody
    caught. *)
Inductive main_outcome : Type :=
| SystemExit (code : Z)
| Returned (output_path : string) (document : dict string module_info)
| Uncaught (e : exn).

(** What [parser.parse_args()] does with the command line: it returns the
    namespace, [output] being [None] when -o is not given, or it leaves the
    program itself through [sys.exit]: with code 0 after printing the help
    text for -h, with code 2 on a usage error. *)
Inductive parsed : Type :=
| Namespace (codebase_path : string) (output : option string)
| HelpRequested
| UsageError.

Class CommandLine : Type := {
  parse_args : list string → parsed
}.

Section main.
Context `{PyAst} `{!Codebase} `{FileTree} `{CommandLine}.

Definition get_python_files (codebase_path : string) : list string :=
  foldl (λ python_files '(root, _, files),
           foldl (λ python_files file,
                    if endswith file ".py"
                    then python_files ++ [path_join root file]
                    else python_files)
                 python_files files)
        [] (walk codebase_path).

(** [main], run on the command line [argv]. *)
Definition main (argv : list string) : main_outcome :=
  match parse_args argv with
  | HelpRequested => SystemExit 0
  | UsageError => SystemExit 2
  | Namespace codebase_path output =>
      let output_path := default "ast_signature_output.json" output in
      if negb (isdir codebase_path) then SystemExit 1
      else
        let python_files := get_python_files codebase_path in
        match python_files with
        | [] => SystemExit 1
        | _ =>
            match extract_signatures_with_ast_method REPORT_EMPTY_ITEMS
                    codebase_path python_files (negb OMIT_DOCSTRINGS) with
            | Raise e => Uncaught e
            | Ok all_signatures =>
                match write_json output_path all_signatures with
                | Ok _ => Returned output_path all_signatures
                | Raise _ => SystemExit 1
                end
            end
        end
  end.
End main.

(** ** Loops of dict assignments as list folds *)

(** [for k, v in kvs: d[k] = v] *)
Definition dict_assign_all {V} (kvs : list (string * V)) (d : dict string V)
    : dict string V :=
  foldl (λ d '(k, v), dict_set k v d) d kvs.

Section declared.
Context `{PyAst}.

(** The name of a function or async function declaration. *)
Definition callable_name (s : stmt) : option string :=
  match s with
  | FunctionDef name _ _ _ => Some name
  | AsyncFunctionDef name _ _ _ => Some name
  | _ => None
  end.

Definition class_name (s : stmt) : option string :=
  match s with
  | ClassDef name _ => Some name
  | _ => None
  end.

(** Names declared by the function and async function statements of a
    body, and by its class statements, in source order. *)
Definition function_names (body : list stmt) : list string :=
  omap callable_name body.

Definition class_names (body : list stmt) : list string :=
  omap class_name body.

(** The entry a function or async function declaration is given. *)
Definition callable_info (incl : bool) (s : stmt) : option (string * func_info) :=
  let info fa ret is_async body :=
    {| signature :=
         Some (signature_text (positional_entries fa ++ variadic_entries fa)
                 ret is_async);
       docstring := if incl then Some (default "" (get_docstring body))
                    else None |} in
  match s with
  | FunctionDef name fa body ret => Some (name, info fa ret false body)
  | AsyncFunctionDef name fa body ret => Some (name, info fa ret true body)
  | _ => None
  end.

(** The entry a class declaration is given. *)
Definition class_info_of (incl : bool) (s : stmt) : option (string * class_entry) :=
  match s with
  | ClassDef name body =>
      Some (name,
            {| methods :=
                 Some (dict_assign_all (omap (callable_info incl) body) []);
               class_docstring :=
                 if incl then Some (default "" (get_docstring body))
                 else None |})
  | _ => None
  end.

Context `{!Codebase}.

(** The entry a file is given in the batch report, if any; computing it
    raises what [relpath] raises. *)
Definition report_entry (re : bool) (root : string) (incl : bool)
    (file_path : string) : result (option (string * module_info)) :=
  mi ← extract_signatures_with_ast re file_path incl;
  if negb (module_info_is_empty mi) || negb re
  then key ← relpath file_path root; mret (Some (key, mi))
  else mret None.

(** The paths of a batch together with the relative paths [relpath]
    returns for them. *)
Definition relpaths_are (root : string) (files rels : list string) : Prop :=
  Forall2 (λ f rel, relpath f root = Ok rel) files rels.
End declared.

(** ** More sample data *)

Module SampleFiles.
(** An [ast] module without [unparse]. *)
Definition old_ast : PyAst :=
  {| expr := Sample.sexpr;
     has_unparse := false;
     unparse := Sample.sunparse;
     constant_str e := match e with Sample.Str s => Some s | _ => None end;
     cleandoc s := s |}.

(** [def q(a, b: int = 2)] for that module. *)
Definition q_args : @arguments old_ast :=
  {| posonlyargs := [];
     args := [ {| arg := "a"; annotation := None |};
               {| arg := "b"; annotation := Some (Sample.Name "int" : @expr old_ast) |} ];
     vararg := None; kwonlyargs := []; kw_defaults := []; kwarg := None;
     defaults := [Sample.Num "2" : @expr old_ast] |}.

(** [def v(a: int = 1, *args: int, **kw: str)] for that module. *)
Definition v_args : @arguments old_ast :=
  {| posonlyargs := [];
     args := [ {| arg := "a"; annotation := Some (Sample.Name "int" : @expr old_ast) |} ];
     vararg := Some {| arg := "args";
                       annotation := Some (Sample.Name "int" : @expr old_ast) |};
     kwonlyargs := []; kw_defaults := [];
     kwarg := Some {| arg := "kw";
                      annotation := Some (Sample.Name "str" : @expr old_ast) |};
     defaults := [Sample.Num "1" : @expr old_ast] |}.

(** [def only_kw(a, /, *, k=1)] *)
Definition only_kw_args : @arguments Sample.ast :=
  {| posonlyargs := [Sample.plain "a"]; args := []; vararg := None;
     kwonlyargs := [Sample.plain "k"];
     kw_defaults := [Some (Sample.Num "1" : @expr Sample.ast)];
     kwarg := None; defaults := [] |}.

(** [def m(self): "x"] *)
Definition def_m : @stmt Sample.ast :=
  FunctionDef "m" (Sample.params [Sample.plain "self"] [])
    [Expr (Sample.Str "x" : @expr Sample.ast)] None.

(** A code base of four files: [a.py] declares a function twice and a
    class twice, [bad.py] does not parse, [init.py] holds an import only and
    [b.py] one function. *)
Definition codebase : @Codebase Sample.ast :=
  {| parse_file path :=
       if decide (path = "src/bad.py") then Raise SyntaxError
       else if decide (path = "src/a.py") then
         Ok [Sample.def_f; ClassDef "C" [def_m]; OtherStmt [];
             AsyncFunctionDef "f" (Sample.params [Sample.plain "x"] []) [] None;
             ClassDef "C" []]
       else if decide (path = "src/init.py") then Ok [OtherStmt []]
       else Ok [Sample.def_f];
     relpath := Sample.relpath_under |}.

(** A batch on Windows with the root [C:/src]: [D:/bad.py] does not parse
    and lies on another drive, for which [os.path.relpath] raises
    ValueError; the file with the empty path cannot be opened, and
    [os.path.relpath] raises ValueError for the empty path on every
    platform. *)
Definition windows : @Codebase Sample.ast :=
  {| parse_file path :=
       if decide (path = "D:/bad.py") then Raise SyntaxError
       else if decide (path = "") then Raise OtherException
       else Ok [Sample.def_f];
     relpath path start :=
       if decide (path = "D:/bad.py") then Raise ValueError
       else Sample.relpath_under path start |}.

(** A command line: the directory, optionally followed by -o and a path;
    -h asks for help; anything else is a usage error. *)
Definition command_line : CommandLine :=
  {| parse_args argv :=
       match argv with
       | [path] =>
           if decide (path = "-h") then HelpRequested else Namespace path None
       | [path; flag; out] =>
           if decide (flag = "-o") then Namespace path (Some out)
           else UsageError
       | _ => UsageError
       end |}.

(** The tree under [src]: two directories, one file that is not Python. *)
Definition tree : FileTree :=
  {| isdir path := bool_decide (path = "src");
     walk top :=
       if decide (top = "src")
       then [("src", ["pkg"], ["a.py"; "notes.txt"; "bad.py"]);
             ("src/pkg", [], ["b.py"])]
       else [];
     path_join dir name := dir +:+ "/" +:+ name;
     write_json path document :=
       if decide (path = "/readonly.json") then Raise OtherException
       else Ok tt |}.

End SampleFiles.

(** * Properties *)

(** ** Strings and loops *)

Lemma append_assoc (s1 s2 s3 : string) : (s1 +:+ s2) +:+ s3 = s1 +:+ s2 +:+ s3.
Proof.
  induction s1 as [|c s1 IH]; [reflexivity|].
  change (String c ((s1 +:+ s2) +:+ s3) = String c (s1 +:+ s2 +:+ s3)).
  by f_equal.
Qed.

Lemma append_empty_r (s : string) : s +:+ "" = s.
Proof.
  induction s as [|c s IH]; [reflexivity|].
  change (String c (s +:+ "") = String c s). by f_equal.
Qed.

Lemma bind_Ok {A B} (f : A → result B) (a : A) : (Ok a ≫= f) = f a.
Proof. reflexivity. Qed.

Lemma for_each_app {A S} (body : S → A → result S) (l1 l2 : list A) (s : S) :
  for_each body (l1 ++ l2) s = (for_each body l1 s ≫= for_each body l2).
Proof.
  revert s. induction l1 as [|x l1 IH]; intros s; simpl; [done|].
  destruct (body s x) as [s'|e]; simpl; [apply IH | done].
Qed.

(** ** The renderer *)

Section renderer_facts.
Context `{PyAst}.

Lemma try_unparse_ok (e : expr) : try_unparse e = Ok (expr_text e).
Proof.
  unfold try_unparse, expr_text.
  destruct has_unparse; [|done]. by destruct (unparse e).
Qed.


Lemma positional_step_ok (tbl : gmap Z expr) acc i a :
  positional_step tbl acc (i, a)
  = Ok (acc ++ [positional_entry (tbl !! i) a]).
Proof.
  unfold positional_step, positional_entry, default_suffix, annotation_suffix.
  destruct (tbl !! i) as [d|], (annotation a) as [t|];
    rewrite ?try_unparse_ok; simpl;
    rewrite ?append_assoc, ?append_empty_r; done.
Qed.

Lemma positional_loop_ok (tbl : gmap Z expr) (l : list ast_arg) n acc :
  for_each (positional_step tbl) (enumerate_from n l) acc
  = Ok (acc ++ imap (λ j a, positional_entry (tbl !! (n + Z.of_nat j)) a) l).
Proof.
  revert n acc. induction l as [|a l IH]; intros n acc;
    cbn [for_each enumerate_from imap].
  - by rewrite app_nil_r.
  - rewrite positional_step_ok, bind_Ok, IH, <- app_assoc. simpl.
    rewrite Z.add_0_r. do 3 f_equal.
    apply imap_ext. intros j b _. simpl. do 2 f_equal. lia.
Qed.

Lemma variadic_step_ok stars v acc :
  variadic_step stars v acc = Ok (acc ++ variadic_entry stars v).
Proof.
  unfold variadic_step, variadic_entry, annotation_suffix.
  destruct v as [a|]; [|by rewrite app_nil_r].
  destruct (annotation a) as [t|];
    rewrite ?try_unparse_ok; simpl; rewrite ?append_empty_r; done.
Qed.

Lemma signature_entries_ok (fa : arguments) :
  signature_entries fa = Ok (positional_entries fa ++ variadic_entries fa).
Proof.
  unfold signature_entries, enumerate. rewrite positional_loop_ok. simpl.
  rewrite !variadic_step_ok. simpl. rewrite variadic_step_ok.
  unfold variadic_entries, positional_entries, rendered_default.
  by rewrite <- app_assoc.
Qed.

Lemma get_function_signature_ok (fa : arguments) ret is_async :
  get_function_signature fa ret is_async
  = Ok (signature_text (positional_entries fa ++ variadic_entries fa)
          ret is_async).
Proof.
  unfold get_function_signature, signature_text, return_suffix, async_prefix.
  rewrite signature_entries_ok. simpl.
  destruct ret as [r|]; rewrite ?try_unparse_ok; simpl;
    destruct is_async; simpl; rewrite ?append_assoc, ?append_empty_r; done.
Qed.

Lemma positional_entries_length (fa : arguments) :
  length (positional_entries fa) = length (args fa).
Proof. unfold positional_entries. by rewrite length_imap. Qed.

Lemma positional_entries_lookup (fa : arguments) (j : nat) :
  positional_entries fa !! j
  = positional_entry (rendered_default fa j) <$> args fa !! j.
Proof. unfold positional_entries. by rewrite list_lookup_imap. Qed.

(** What the comprehension stores: key [off + n + i] holds the [i]-th
    element of the enumerated list, and nothing else is touched. *)
Lemma defaults_fold_lookup (off : Z) (l : list expr) (n : Z)
    (m0 : gmap Z expr) (k : Z) :
  foldl (λ (m : gmap Z expr) '(i, d), <[off + i := d]> m) m0
        (enumerate_from n l) !! k
  = if decide (off + n ≤ k < off + n + Z.of_nat (length l))
    then l !! Z.to_nat (k - off - n)
    else m0 !! k.
Proof.
  revert n m0. induction l as [|x l IH]; intros n m0; simpl.
  - case_decide; [lia | done].
  - rewrite IH. repeat case_decide; try lia.
    + replace (Z.to_nat (k - off - n)) with (S (Z.to_nat (k - off - (n + 1))))
        by lia. done.
    + assert (k = off + n) as -> by lia.
      rewrite lookup_insert_eq.
      by replace (off + n - off - n) with 0 by lia.
    + rewrite lookup_insert_ne by lia. done.
Qed.

Lemma rendered_default_spec (fa : arguments) (j : nat) :
  rendered_default fa j
  = if decide (length (args fa) ≤ j + length (defaults fa)
               ∧ j < length (args fa))%nat
    then defaults fa !! (j + length (defaults fa) - length (args fa))%nat
    else None.
Proof.
  unfold rendered_default, defaults_table, enumerate.
  rewrite (defaults_fold_lookup
             (Z.of_nat (length (args fa)) - Z.of_nat (length (defaults fa)))).
  repeat case_decide; try lia.
  - f_equal. lia.
  - apply lookup_empty.
Qed.

End renderer_facts.

Section renderer_claims.
Context `{PyAst}.

(** C3. Default-value alignment.  With P positional parameters and D
    declared defaults, D ≤ P, the entries of the rendered parameter list
    start with P positional entries; default [i] is written on the entry
    at index [P - D + i], and the entries at the first [P - D] indices are
    the name and annotation only. *)
Theorem default_alignment (fa : arguments) (ret : option expr)
    (is_async : bool) :
  (length (defaults fa) ≤ length (args fa))%nat →
  ∃ pos : list string,
    length pos = length (args fa) ∧
    signature_entries fa = Ok (pos ++ variadic_entries fa) ∧
    get_function_signature fa ret is_async
      = Ok (signature_text (pos ++ variadic_entries fa) ret is_async) ∧
    (∀ i d a,
       defaults fa !! i = Some d →
       args fa !! (length (args fa) - length (defaults fa) + i)%nat = Some a →
       pos !! (length (args fa) - length (defaults fa) + i)%nat
         = Some (arg a +:+ "=" +:+ expr_text d +:+ annotation_suffix a)) ∧
    (∀ j a,
       (j < length (args fa) - length (defaults fa))%nat →
       args fa !! j = Some a →
       pos !! j = Some (arg a +:+ annotation_suffix a)).
Proof.
  intros HD. exists (positional_entries fa).
  split; [apply positional_entries_length|].
  split; [apply signature_entries_ok|].
  split; [apply get_function_signature_ok|].
  split.
  - intros i d a Hd Ha.
    rewrite positional_entries_lookup, Ha, rendered_default_spec. simpl.
    apply lookup_lt_Some in Ha. case_decide; [|lia].
    replace (length (args fa) - length (defaults fa) + i
             + length (defaults fa) - length (args fa))%nat with i by lia.
    rewrite Hd. unfold positional_entry, default_suffix.
    by rewrite append_assoc.
  - intros j a Hj Ha.
    rewrite positional_entries_lookup, Ha, rendered_default_spec. simpl.
    case_decide; [lia|]. done.
Qed.

(** C4. A positional parameter with both a default and an annotation is
    rendered [name=default: Type].  The parameter at index [j] carries
    default [i] when [j = P - D + i], written here without subtraction. *)
Theorem annotation_after_default (fa : arguments) (ret : option expr)
    (is_async : bool) (j i : nat) (a : ast_arg) (d t : expr) :
  args fa !! j = Some a →
  defaults fa !! i = Some d →
  (j + length (defaults fa) = length (args fa) + i)%nat →
  annotation a = Some t →
  ∃ entries : list string,
    signature_entries fa = Ok entries ∧
    get_function_signature fa ret is_async
      = Ok (signature_text entries ret is_async) ∧
    entries !! j
      = Some (arg a +:+ "=" +:+ expr_text d +:+ ": " +:+ expr_text t).
Proof.
  intros Ha Hd Hj Ht.
  exists (positional_entries fa ++ variadic_entries fa).
  split; [apply signature_entries_ok|].
  split; [apply get_function_signature_ok|].
  rewrite lookup_app_l
    by (rewrite positional_entries_length; by eapply lookup_lt_Some).
  rewrite positional_entries_lookup, Ha, rendered_default_spec. simpl.
  apply lookup_lt_Some in Ha. case_decide; [|lia].
  replace (j + length (defaults fa) - length (args fa))%nat with i by lia.
  rewrite Hd. unfold positional_entry, default_suffix, annotation_suffix.
  by rewrite Ht, append_assoc.
Qed.

(** C7. The variadic positional parameter is rendered [*name] and the
    variadic keyword parameter [**name], each followed by [: Type] when
    annotated; they come after the positional entries, in that order, in
    the one comma-joined parenthesised list.  A function [h] declared
    with the parameters [*args, **kwargs] and nothing else renders as
    those two entries between parentheses. *)
Theorem variadic_rendering (fa : arguments) (ret : option expr)
    (is_async : bool) :
  (∃ pos : list string,
     length pos = length (args fa) ∧
     signature_entries fa
       = Ok (pos ++ variadic_entry "*" (vararg fa)
                 ++ variadic_entry "**" (kwarg fa)) ∧
     get_function_signature fa ret is_async
       = Ok (async_prefix is_async +:+ "("
             +:+ String.concat ", "
                   (pos ++ variadic_entry "*" (vararg fa)
                        ++ variadic_entry "**" (kwarg fa))
             +:+ ")" +:+ return_suffix ret)) ∧
  get_function_signature
    {| posonlyargs := []; args := [];
       vararg := Some {| arg := "args"; annotation := None |};
       kwonlyargs := []; kw_defaults := [];
       kwarg := Some {| arg := "kwargs"; annotation := None |};
       defaults := [] |} None false
    = Ok "(*args, **kwargs)".
Proof.
  split; [|reflexivity].
  exists (positional_entries fa).
  split; [apply positional_entries_length|].
  split; [apply signature_entries_ok|apply get_function_signature_ok].
Qed.


(** C9. Keyword-only parameters leave no trace in the signature: the
    result is the same whatever [kwonlyargs] and [kw_defaults] hold, and
    the entries are one per plain positional parameter, then the
    variadic positional and the variadic keyword parameter if present. *)
Theorem kwonly_not_rendered (fa : arguments) (ret : option expr)
    (is_async : bool) (kwo : list ast_arg) (kwd : list (option expr)) :
  get_function_signature
    {| posonlyargs := posonlyargs fa; args := args fa; vararg := vararg fa;
       kwonlyargs := kwo; kw_defaults := kwd;
       kwarg := kwarg fa; defaults := defaults fa |} ret is_async
    = get_function_signature fa ret is_async ∧
  ∃ entries : list string,
    signature_entries fa = Ok entries ∧
    get_function_signature fa ret is_async
      = Ok (signature_text entries ret is_async) ∧
    length entries
      = (length (args fa) + length (option_list (vararg fa))
         + length (option_list (kwarg fa)))%nat.
Proof.
  split; [reflexivity|].
  exists (positional_entries fa ++ variadic_entries fa).
  split; [apply signature_entries_ok|].
  split; [apply get_function_signature_ok|].
  unfold variadic_entries.
  rewrite !length_app, positional_entries_length.
  destruct (vararg fa), (kwarg fa); simpl; lia.
Qed.

End renderer_claims.

(** ** Dicts *)

Section dict_facts.
Context {V : Type}.
Implicit Types (d done l : dict string V) (k : string).

Lemma dict_set_mid k (v v' : V) done l :
  k ∉ dict_keys done →
  dict_set k v' (done ++ (k, v) :: l) = done ++ (k, v') :: l.
Proof.
  unfold dict_keys. induction done as [|[k0 v0] done IH]; csimpl; intros Hk.
  - by rewrite decide_True.
  - destruct (decide (k = k0)) as [->|Hne]; [set_solver|].
    rewrite IH; [done | set_solver].
Qed.

Lemma dict_del_mid k (v : V) done l :
  k ∉ dict_keys done →
  dict_del k (done ++ (k, v) :: l) = Ok (done ++ l).
Proof.
  unfold dict_keys. induction done as [|[k0 v0] done IH]; csimpl; intros Hk.
  - by rewrite decide_True.
  - destruct (decide (k = k0)) as [->|Hne]; [set_solver|].
    rewrite IH; [done | set_solver].
Qed.

Lemma dict_keys_set k (v : V) d :
  dict_keys (dict_set k v d)
  = if decide (k ∈ dict_keys d) then dict_keys d else dict_keys d ++ [k].
Proof.
  unfold dict_keys. induction d as [|[k' v'] d IH]; csimpl; [done|].
  destruct (decide (k = k')) as [->|Hne]; csimpl.
  - by rewrite decide_True by set_solver.
  - rewrite IH. destruct (decide (k ∈ d.*1)).
    + by rewrite decide_True by set_solver.
    + by rewrite decide_False by set_solver.
Qed.

Lemma dict_set_wf k (v : V) d : dict_wf d → dict_wf (dict_set k v d).
Proof.
  unfold dict_wf. rewrite dict_keys_set. case_decide as Hk; [done|].
  intros Hd. apply NoDup_app. split_and!; [done | | apply NoDup_singleton].
  intros x Hx ->%list_elem_of_singleton. done.
Qed.

Lemma dict_get_set k k' (v : V) d :
  dict_get k' (dict_set k v d)
  = if decide (k' = k) then Some v else dict_get k' d.
Proof.
  induction d as [|[k0 v0] d IH]; simpl.
  - by case_decide.
  - repeat (case_decide; simpl; subst); try done; congruence.
Qed.

Lemma prune_items_keys (clean : V → V) is_empty d k :
  k ∈ dict_keys (prune_items clean is_empty d) → k ∈ dict_keys d.
Proof.
  unfold dict_keys, prune_items.
  induction d as [|[k' v'] d IH]; csimpl; [done|].
  destruct (is_empty (clean v')); csimpl; set_solver.
Qed.

Lemma prune_items_wf (clean : V → V) is_empty d :
  dict_wf d → dict_wf (prune_items clean is_empty d).
Proof.
  unfold dict_wf, dict_keys. induction d as [|[k' v'] d IH]; [done|].
  csimpl. intros [Hk Hd]%NoDup_cons.
  change (omap _ d) with (prune_items clean is_empty d) in *.
  destruct (is_empty (clean v')); csimpl; [by apply IH|].
  apply NoDup_cons. split; [|by apply IH].
  intros Hin. apply Hk. by eapply prune_items_keys.
Qed.

(** A second pass finds nothing left to do. *)
Lemma prune_items_idemp (clean : V → V) is_empty d :
  (∀ v, clean (clean v) = clean v) →
  prune_items clean is_empty (prune_items clean is_empty d)
  = prune_items clean is_empty d.
Proof.
  intros Hc. unfold prune_items.
  induction d as [|[k' v'] d IH]; csimpl; [done|].
  destruct (is_empty (clean v')) eqn:He; csimpl; [done|].
  by rewrite Hc, He, IH.
Qed.

(** The loop over a snapshot of the items, run on a dict with unique
    keys: each value is replaced by its cleaned form where it stands, or
    its entry removed. *)
Lemma for_each_prune (step : dict string V → string * V → result (dict string V))
    (clean : V → V) (is_empty : V → bool) l done :
  (∀ d k v, (k, v) ∈ l →
     step d (k, v)
     = if is_empty (clean v) then dict_del k (dict_set k (clean v) d)
       else Ok (dict_set k (clean v) d)) →
  dict_wf (done ++ l) →
  for_each step l (done ++ l) = Ok (done ++ prune_items clean is_empty l).
Proof.
  unfold dict_wf, dict_keys.
  revert done. induction l as [|[k v] l IH]; intros done Hstep Hwf.
  - simpl. by rewrite app_nil_r.
  - cbn [for_each]. rewrite Hstep by set_solver.
    assert (k ∉ done.*1) as Hk.
    { rewrite fmap_app in Hwf. apply NoDup_app in Hwf as (_ & Hd & _).
      intros Hin. apply (Hd _ Hin). simpl. set_solver. }
    rewrite dict_set_mid by done.
    unfold prune_items. cbn [omap list_omap].
    destruct (is_empty (clean v)).
    + rewrite dict_del_mid by done. rewrite bind_Ok.
      apply IH; [intros; apply Hstep; set_solver|].
      rewrite fmap_app in *. simpl in Hwf.
      apply NoDup_app in Hwf as (H1 & H2 & [_ H3]%NoDup_cons).
      apply NoDup_app. split_and!; [done | | done].
      intros x Hx Hx'. apply (H2 _ Hx). set_solver.
    + rewrite bind_Ok.
      replace (done ++ (k, clean v) :: l)
        with ((done ++ [(k, clean v)]) ++ l) by by rewrite <- app_assoc.
      rewrite IH; [by rewrite <- app_assoc | intros; apply Hstep; set_solver|].
      rewrite fmap_app in *. rewrite fmap_app, <- app_assoc. done.
Qed.
End dict_facts.

(** ** The pruning block *)

Lemma prune_items_Forall {V} (P : V → Prop) (clean : V → V) is_empty
    (d : dict string V) :
  (∀ v, P v → P (clean v)) →
  Forall (λ kv, P kv.2) d →
  Forall (λ kv, P kv.2) (prune_items clean is_empty d).
Proof.
  intros Hc. unfold prune_items.
  induction 1 as [|[k v] d Hv Hd IH]; csimpl; [done|].
  destruct (is_empty (clean v)); csimpl; [done|].
  constructor; [by apply Hc | done].
Qed.

Lemma del_empty_docstring_idemp (fi : func_info) :
  del_empty_docstring (del_empty_docstring fi) = del_empty_docstring fi.
Proof. by destruct fi as [s [[|c d]|]]. Qed.

Lemma clean_callables_idemp (d : dict string func_info) :
  clean_callables (clean_callables d) = clean_callables d.
Proof. apply prune_items_idemp, del_empty_docstring_idemp. Qed.

Lemma clean_class_idemp (ce : class_entry) :
  clean_class (clean_class ce) = clean_class ce.
Proof.
  unfold clean_class.
  destruct ce as [[ms|] doc]; cbn [methods class_docstring].
  - pose proof (clean_callables_idemp ms) as Hid.
    destruct (clean_callables ms) as [|kv ms'] eqn:Hms;
      cbn [methods class_docstring].
    + by destruct doc as [[|c s]|].
    + rewrite Hid. by destruct doc as [[|c s]|].
  - by destruct doc as [[|c s]|].
Qed.

Lemma clean_classes_idemp (d : dict string class_entry) :
  clean_classes (clean_classes d) = clean_classes d.
Proof. apply prune_items_idemp, clean_class_idemp. Qed.

Lemma clean_class_wf (ce : class_entry) : wf_class ce → wf_class (clean_class ce).
Proof.
  unfold wf_class, clean_class. intros Hwf ms'.
  destruct (methods ce) as [ms|] eqn:Hms; [|done].
  specialize (Hwf ms eq_refl).
  destruct (clean_callables ms) as [|kv l] eqn:Hc; simpl; [done|].
  intros [= <-]. rewrite <- Hc. by apply prune_items_wf.
Qed.

Lemma prune_callables_ok (fs : dict string func_info) :
  dict_wf fs → for_each prune_callable_step fs fs = Ok (clean_callables fs).
Proof.
  intros Hwf.
  apply (for_each_prune prune_callable_step del_empty_docstring
           func_info_is_empty fs []); [|done].
  intros d k v _. reflexivity.
Qed.

Lemma prune_class_step_eq (d : dict string class_entry) k (ce : class_entry) :
  wf_class ce →
  prune_class_step d (k, ce)
  = if class_entry_is_empty (clean_class ce)
    then dict_del k (dict_set k (clean_class ce) d)
    else Ok (dict_set k (clean_class ce) d).
Proof.
  unfold wf_class, prune_class_step, clean_class. intros Hwf.
  destruct ce as [[ms|] doc]; simpl in *.
  - assert (dict_wf ms) as Hms by by apply Hwf.
    destruct doc as [[|c s]|]; simpl; rewrite prune_callables_ok by done;
      simpl; by destruct (clean_callables ms).
  - by destruct doc as [[|c s]|].
Qed.

Lemma prune_classes_ok (cs : dict string class_entry) :
  dict_wf cs → Forall (λ kv, wf_class kv.2) cs →
  for_each prune_class_step cs cs = Ok (clean_classes cs).
Proof.
  intros Hwf Hcs.
  apply (for_each_prune prune_class_step clean_class
           class_entry_is_empty cs []); [|done].
  intros d k v Hin. apply prune_class_step_eq.
  rewrite Forall_forall in Hcs. by apply (Hcs (k, v)).
Qed.

(** The block on a report that has both of its top-level keys. *)
Lemma prune_empty_items_ok (mi : module_info) fs cs :
  wf_module mi → functions mi = Some fs → classes mi = Some cs →
  prune_empty_items mi
  = Ok {| functions := if dict_is_empty fs then None
                       else Some (clean_callables fs);
          classes := if dict_is_empty cs then None
                     else Some (clean_classes cs) |}.
Proof.
  intros [Hf Hc] Hfs Hcs. destruct mi as [f c]. simpl in *. subst f c.
  destruct (Hc cs eq_refl) as [Hcwf Hcall]. specialize (Hf fs eq_refl).
  unfold prune_empty_items.
  pose proof (prune_callables_ok fs Hf) as Hpf.
  pose proof (prune_classes_ok cs Hcwf Hcall) as Hpc.
  destruct fs as [|kv fs]; destruct cs as [|kc cs];
    repeat first [progress cbn [dict_is_empty functions classes getitem]
                 | rewrite bind_Ok | rewrite Hpf | rewrite Hpc ]; done.
Qed.

(** The block indexes both top-level keys before anything else. *)
Lemma prune_empty_items_KeyError (mi : module_info) :
  functions mi = None ∨ classes mi = None →
  prune_empty_items mi = Raise KeyError.
Proof.
  unfold prune_empty_items. destruct mi as [[fs|] [cs|]]; simpl;
    intros [?|?]; try done.
  by destruct (dict_is_empty fs).
Qed.

Lemma prune_empty_items_inv (mi r : module_info) :
  prune_empty_items mi = Ok r →
  ∃ fs cs, functions mi = Some fs ∧ classes mi = Some cs.
Proof.
  destruct mi as [[fs|] [cs|]]; intros Hr; try by eauto.
  all: rewrite prune_empty_items_KeyError in Hr by (simpl; auto); done.
Qed.

Lemma prune_empty_items_wf (mi r : module_info) :
  wf_module mi → prune_empty_items mi = Ok r → wf_module r.
Proof.
  intros Hwf Hr.
  destruct (prune_empty_items_inv _ _ Hr) as (fs & cs & Hfs & Hcs).
  rewrite (prune_empty_items_ok mi fs cs) in Hr by done.
  injection Hr as <-. destruct Hwf as [Hf Hc].
  destruct (Hc cs Hcs) as [Hcwf Hcall]. split; simpl.
  - intros fs'. destruct (dict_is_empty fs); [done|].
    intros [= <-]. by apply prune_items_wf, Hf.
  - intros cs'. destruct (dict_is_empty cs); [done|].
    intros [= <-]. split; [by apply prune_items_wf|].
    apply prune_items_Forall; [apply clean_class_wf | done].
Qed.

(** ** The extractor *)


Lemma dict_set_Forall {V} (P : V → Prop) k (v : V) (d : dict string V) :
  P v → Forall (λ kv, P kv.2) d → Forall (λ kv, P kv.2) (dict_set k v d).
Proof.
  intros Hv. induction 1 as [|[k' v'] d Hv' Hd IH]; simpl.
  - by constructor.
  - destruct (decide (k = k')); constructor; done.
Qed.

Section extract_facts.
Context `{PyAst}.

Lemma build_info_ok fa ret is_async body incl :
  build_info fa ret is_async body incl
  = Ok {| signature :=
            Some (signature_text
                    (positional_entries fa ++ variadic_entries fa)
                    ret is_async);
          docstring := if incl then Some (default "" (get_docstring body))
                       else None |}.
Proof. unfold build_info. by rewrite get_function_signature_ok. Qed.









Lemma class_loop_ok incl (body : list stmt) acc :
  dict_wf acc →
  ∃ acc', for_each (class_item_step incl) body acc = Ok acc' ∧ dict_wf acc'.
Proof.
  revert acc. induction body as [|s rest IH]; intros acc Hacc.
  - by exists acc.
  - cbn [for_each].
    destruct s; cbn [class_item_step]; rewrite ?build_info_ok, ?bind_Ok;
      try (by apply IH).
    all: apply IH; by apply dict_set_wf.
Qed.

Lemma module_loop_ok incl (body : list stmt) fs cs :
  dict_wf fs → dict_wf cs → Forall (λ kv, wf_class kv.2) cs →
  ∃ fs' cs',
    for_each (module_item_step incl) body
      {| functions := Some fs; classes := Some cs |}
    = Ok {| functions := Some fs'; classes := Some cs' |} ∧
    dict_wf fs' ∧ dict_wf cs' ∧ Forall (λ kv, wf_class kv.2) cs'.
Proof.
  revert fs cs. induction body as [|s rest IH]; intros fs cs Hfs Hcs Hall.
  - by exists fs, cs.
  - cbn [for_each].
    destruct s; cbn [module_item_step functions classes getitem];
      rewrite ?build_info_ok, ?bind_Ok;
      cbn [module_item_step functions classes getitem];
      rewrite ?bind_Ok; try (by apply IH).
    + apply IH; [by apply dict_set_wf | done | done].
    + apply IH; [by apply dict_set_wf | done | done].
    + destruct (class_loop_ok incl body [] (NoDup_nil_2)) as (ms & -> & Hms).
      rewrite bind_Ok. cbn [getitem classes]. rewrite bind_Ok.
      apply IH; [done | by apply dict_set_wf |].
      apply dict_set_Forall; [|done].
      intros ms'. simpl. by intros [= <-].
Qed.

(** The extractor returns a report for every module body. *)
Lemma extract_module_ok re (body : list stmt) incl :
  ∃ mi, extract_module re body incl = Ok mi ∧ wf_module mi.
Proof.
  unfold extract_module.
  destruct (module_loop_ok incl body [] [] (NoDup_nil_2) (NoDup_nil_2)
              (Forall_nil_2 _))
    as (fs & cs & Hloop & Hfs & Hcs & Hall).
  rewrite Hloop, bind_Ok.
  assert (wf_module {| functions := Some fs; classes := Some cs |}) as Hwf.
  { split; simpl; intros ? [= <-]; done. }
  destruct re; [|by eexists].
  eexists. split; [by apply prune_empty_items_ok|].
  eapply prune_empty_items_wf; [exact Hwf|].
  by apply prune_empty_items_ok.
Qed.

Context `{!Codebase}.

Lemma extract_signatures_with_ast_ok re file_path incl :
  ∃ mi, extract_signatures_with_ast re file_path incl = Ok mi.
Proof.
  unfold extract_signatures_with_ast.
  destruct (parse_file file_path) as [body|[]]; try by eexists.
  destruct (extract_module_ok re body incl) as (mi & -> & _). by eexists.
Qed.

Lemma extract_failure re file_path incl e :
  parse_file file_path = Raise e →
  extract_signatures_with_ast re file_path incl = Ok empty_module_info.
Proof.
  unfold extract_signatures_with_ast. intros ->. by destruct e.
Qed.

End extract_facts.

(** ** Depth of the shallow view *)

Section depth_facts.
Context `{PyAst}.









End depth_facts.

(** ** The pruning block: claims *)

(** C1, at a module the block leaves with an empty mapping.  For the
    module [class A: pass], with or without docstrings, the pruned report
    is [{'classes': {}}]: class A is deleted from 'classes' after the
    test that removes an empty 'classes' has already run. *)
Theorem pruned_report_keeps_empty_classes (incl : bool) :
  @extract_module Sample.ast true [Sample.class_A] incl
  = Ok {| functions := None; classes := Some [] |}.
Proof. by destruct incl. Qed.

(** C2, as amended.  Take a report on which the block has run once.  If
    the result still has its functions and its classes mapping and
    neither is empty, running the block on the result returns the result
    unchanged.  If the first run removed the functions or the classes
    mapping, a second run raises KeyError, since the block indexes both
    keys before anything else. *)
Theorem prune_twice (mi r : module_info) :
  wf_module mi →
  prune_empty_items mi = Ok r →
  (∀ fs cs, functions r = Some fs → classes r = Some cs →
            fs ≠ [] → cs ≠ [] → prune_empty_items r = Ok r) ∧
  (functions r = None ∨ classes r = None →
   prune_empty_items r = Raise KeyError).
Proof.
  intros Hwf Hr. split; [|apply prune_empty_items_KeyError].
  intros fs cs Hfs Hcs Hfne Hcne.
  pose proof (prune_empty_items_wf _ _ Hwf Hr) as Hwfr.
  rewrite (prune_empty_items_ok r fs cs) by done.
  destruct (prune_empty_items_inv _ _ Hr) as (fs0 & cs0 & Hfs0 & Hcs0).
  rewrite (prune_empty_items_ok mi fs0 cs0) in Hr by done.
  injection Hr as <-. simpl in Hfs, Hcs.
  destruct (dict_is_empty fs0); [done|]. destruct (dict_is_empty cs0); [done|].
  injection Hfs as <-. injection Hcs as <-.
  rewrite clean_callables_idemp, clean_classes_idemp.
  destruct (clean_callables fs0); [done|]. by destruct (clean_classes cs0).
Qed.

(** ** Worked instances *)

(** [def f(a, b=2): pass] *)
Example signature_f :
  @get_function_signature Sample.ast Sample.f_args None false = Ok "(a, b=2)".
Proof. reflexivity. Qed.

(** [async def g(x: int) -> int: return x] *)
Example signature_g :
  @get_function_signature Sample.ast
    (Sample.params [Sample.typed "x" "int"] []) (Some (Sample.Name "int")) true
  = Ok "async (x: int) -> int".
Proof. reflexivity. Qed.

(** A file holding [class A: pass] and [def f(): pass] next to one that
    does not parse and one holding [def f(): pass], docstrings on. *)
Example report_of_three_files :
  @extract_signatures_with_ast_method Sample.ast Sample.codebase true "."
    ["a.py"; "bad.py"; "b.py"] true
  = Ok [("a.py",
         {| functions := Some [("f", {| signature := Some "()";
                                        docstring := None |})];
            classes := Some [] |});
        ("b.py",
         {| functions := Some [("f", {| signature := Some "()";
                                        docstring := None |})];
            classes := None |})].
Proof. reflexivity. Qed.

(** C3 at [def f(a, b=2)]: the one default sits on the last entry. *)
Lemma default_alignment_witness :
  (length (defaults Sample.f_args) ≤ length (args Sample.f_args))%nat ∧
  ∃ pos : list string,
    length pos = 2%nat ∧
    @get_function_signature Sample.ast Sample.f_args None false
      = Ok (@signature_text Sample.ast (pos ++ []) None false) ∧
    pos !! 1%nat = Some "b=2" ∧
    pos !! 0%nat = Some "a".
Proof.
  assert (length (defaults Sample.f_args) ≤ length (args Sample.f_args))%nat
    as Hle by (simpl; lia).
  split; [exact Hle|].
  destruct (@default_alignment Sample.ast Sample.f_args None false Hle)
    as (pos & Hlen & _ & Hsig & Hdef & Hplain).
  exists pos. split; [exact Hlen|]. split; [exact Hsig|]. split.
  - exact (Hdef 0%nat (Sample.Num "2") (Sample.plain "b") eq_refl eq_refl).
  - apply (Hplain 0%nat (Sample.plain "a")); [simpl; lia | reflexivity].
Defined.

(** C4 at [def k(a, b: int = 2)]: the entry of [b] reads [b=2: int]. *)
Lemma annotation_after_default_witness :
  args Sample.k_args !! 1%nat = Some (Sample.typed "b" "int") ∧
  defaults Sample.k_args !! 0%nat = Some (Sample.Num "2") ∧
  (1 + length (defaults Sample.k_args)
   = length (args Sample.k_args) + 0)%nat ∧
  annotation (Sample.typed "b" "int") = Some (Sample.Name "int") ∧
  ∃ entries : list string,
    @signature_entries Sample.ast Sample.k_args = Ok entries ∧
    @get_function_signature Sample.ast Sample.k_args None false
      = Ok (@signature_text Sample.ast entries None false) ∧
    entries !! 1%nat = Some "b=2: int".
Proof.
  split; [reflexivity|]. split; [reflexivity|]. split; [reflexivity|].
  split; [reflexivity|].
  exact (@annotation_after_default Sample.ast Sample.k_args None false
           1%nat 0%nat (Sample.typed "b" "int") (Sample.Num "2")
           (Sample.Name "int") eq_refl eq_refl eq_refl eq_refl).
Defined.




(** C2 as stated fails at the report of an empty module: the first run
    returns [{}] and a second run raises KeyError. *)
Lemma prune_twice_raises :
  prune_empty_items {| functions := Some []; classes := Some [] |}
    = Ok empty_module_info ∧
  (prune_empty_items {| functions := Some []; classes := Some [] |}
     ≫= prune_empty_items) = Raise KeyError ∧
  (prune_empty_items {| functions := Some []; classes := Some [] |}
     ≫= prune_empty_items)
  ≠ prune_empty_items {| functions := Some []; classes := Some [] |}.
Proof. split_and!; done. Qed.

(** C2, amended, at a report with a function [f] and a class [C] whose
    method [m] has a docstring. *)
Lemma prune_twice_witness :
  let mi :=
    {| functions := Some [("f", {| signature := Some "()";
                                   docstring := Some "" |})];
       classes :=
         Some [("C", {| methods :=
                          Some [("m", {| signature := Some "(self)";
                                         docstring := Some "x" |})];
                        class_docstring := Some "" |})] |} in
  let r :=
    {| functions := Some [("f", {| signature := Some "()";
                                   docstring := None |})];
       classes :=
         Some [("C", {| methods :=
                          Some [("m", {| signature := Some "(self)";
                                         docstring := Some "x" |})];
                        class_docstring := None |})] |} in
  wf_module mi ∧ prune_empty_items mi = Ok r ∧ prune_empty_items r = Ok r.
Proof.
  intros mi r.
  assert (wf_module mi) as Hwf.
  { split; intros l Hl; injection Hl as <-.
    - apply NoDup_singleton.
    - split; [apply NoDup_singleton|].
      apply Forall_singleton. intros ms Hms. injection Hms as <-.
      apply NoDup_singleton. }
  split; [exact Hwf|]. split; [reflexivity|].
  destruct (prune_twice mi r Hwf eq_refl) as [Hsame _].
  eapply Hsame; [reflexivity | reflexivity | discriminate | discriminate].
Defined.

(** * Further properties of the code *)

(** ** Loops of dict assignments *)

Section dict_assign_facts.
Context {V : Type}.
Implicit Types (d : dict string V) (kvs : list (string * V)) (k : string).

Lemma dict_get_None k d : dict_get k d = None ↔ k ∉ dict_keys d.
Proof.
  unfold dict_keys. induction d as [|[k' v'] d IH]; csimpl.
  - split; [set_solver | done].
  - destruct (decide (k = k')) as [->|Hne]; [set_solver|].
    rewrite IH. set_solver.
Qed.

Lemma dict_get_Some_key k d (v : V) : dict_get k d = Some v → k ∈ dict_keys d.
Proof.
  intros Hget. destruct (decide (k ∈ dict_keys d)) as [|Hn]; [done|].
  apply dict_get_None in Hn. congruence.
Qed.

Lemma dict_get_elem k d (v : V) : dict_get k d = Some v → (k, v) ∈ d.
Proof.
  induction d as [|[k' v'] d IH]; csimpl; [done|].
  destruct (decide (k = k')) as [->|Hne]; [intros [= ->]|]; set_solver.
Qed.

Lemma dict_set_append k (v : V) d :
  k ∉ dict_keys d → dict_set k v d = d ++ [(k, v)].
Proof.
  unfold dict_keys. induction d as [|[k' v'] d IH]; csimpl; intros Hk; [done|].
  destruct (decide (k = k')) as [->|Hne]; [set_solver|].
  rewrite IH; [done | set_solver].
Qed.

Lemma dict_assign_all_app kvs1 kvs2 d :
  dict_assign_all (kvs1 ++ kvs2) d
  = dict_assign_all kvs2 (dict_assign_all kvs1 d).
Proof. unfold dict_assign_all. apply foldl_app. Qed.

Lemma dict_assign_all_cons k (v : V) kvs d :
  dict_assign_all ((k, v) :: kvs) d = dict_assign_all kvs (dict_set k v d).
Proof. reflexivity. Qed.

Lemma dict_keys_set_elem k k' (v : V) d :
  k' ∈ dict_keys (dict_set k v d) ↔ k' = k ∨ k' ∈ dict_keys d.
Proof. rewrite dict_keys_set. case_decide; set_solver. Qed.

Lemma dict_assign_all_keys kvs d k :
  k ∈ dict_keys (dict_assign_all kvs d) ↔ k ∈ dict_keys d ∨ k ∈ kvs.*1.
Proof.
  revert d. induction kvs as [|[k' v'] kvs IH]; intros d.
  - simpl. set_solver.
  - rewrite dict_assign_all_cons, IH, dict_keys_set_elem. csimpl. set_solver.
Qed.

Lemma dict_assign_all_wf kvs d : dict_wf d → dict_wf (dict_assign_all kvs d).
Proof.
  revert d. induction kvs as [|[k' v'] kvs IH]; intros d Hd; [done|].
  rewrite dict_assign_all_cons. by apply IH, dict_set_wf.
Qed.

Lemma dict_assign_all_get_other kvs d k :
  k ∉ kvs.*1 → dict_get k (dict_assign_all kvs d) = dict_get k d.
Proof.
  revert d. induction kvs as [|[k' v'] kvs IH]; intros d Hk; [done|].
  csimpl in Hk. rewrite dict_assign_all_cons, IH by set_solver.
  rewrite dict_get_set. rewrite decide_False; [done | set_solver].
Qed.

(** The last assignment to a key is the one a lookup sees. *)
Lemma dict_assign_all_get_last kvs1 kvs2 d k (v : V) :
  k ∉ kvs2.*1 →
  dict_get k (dict_assign_all (kvs1 ++ (k, v) :: kvs2) d) = Some v.
Proof.
  intros Hk. rewrite dict_assign_all_app, dict_assign_all_cons.
  rewrite dict_assign_all_get_other by done.
  rewrite dict_get_set. by rewrite decide_True.
Qed.

Lemma dict_assign_all_Forall (P : string * V → Prop) kvs d :
  (∀ k k' v, P (k, v) → P (k', v)) →
  Forall P d → Forall P kvs → Forall P (dict_assign_all kvs d).
Proof.
  intros HP. revert d. induction kvs as [|[k' v'] kvs IH]; intros d Hd Hk; [done|].
  apply Forall_cons in Hk as [Hv Hk].
  rewrite dict_assign_all_cons. apply IH; [|done].
  clear IH Hk. induction Hd as [|[k0 v0] d H0 Hd IHd]; csimpl.
  - by constructor.
  - destruct (decide (k' = k0)); constructor; done.
Qed.

(** Distinct new keys are appended in the order they are assigned. *)
Lemma dict_assign_all_distinct kvs d :
  NoDup (dict_keys d ++ kvs.*1) → dict_assign_all kvs d = d ++ kvs.
Proof.
  revert d. induction kvs as [|[k v] kvs IH]; intros d Hnd.
  - by rewrite app_nil_r.
  - csimpl in Hnd. rewrite dict_assign_all_cons.
    assert (k ∉ dict_keys d) as Hk.
    { apply NoDup_app in Hnd as (_ & Hd & _). intros Hin.
      apply (Hd _ Hin). set_solver. }
    rewrite dict_set_append by done.
    rewrite IH; [by rewrite <- app_assoc|].
    unfold dict_keys in *. rewrite fmap_app, <- app_assoc. done.
Qed.

Lemma dict_assign_all_nonempty kvs d :
  kvs ≠ [] → dict_assign_all kvs d ≠ [].
Proof.
  intros Hne Hnil.
  destruct kvs as [|[k v] kvs]; [done|].
  assert (k ∈ dict_keys (dict_assign_all ((k, v) :: kvs) d)) as Hin
    by (apply dict_assign_all_keys; csimpl; set_solver).
  rewrite Hnil in Hin. set_solver.
Qed.

Lemma dict_assign_all_empty kvs :
  dict_assign_all kvs ([] : dict string V) = [] → kvs = [].
Proof.
  intros Hnil. destruct kvs as [|kv kvs]; [done|].
  by apply (dict_assign_all_nonempty (kv :: kvs) []) in Hnil.
Qed.
End dict_assign_facts.

(** ** The extractor loops as dict assignments *)

Lemma dict_get_prune_items {V} (clean : V → V) (is_empty : V → bool)
    (d : dict string V) (k : string) :
  dict_wf d →
  dict_get k (prune_items clean is_empty d)
  = match dict_get k d with
    | Some v => if is_empty (clean v) then None else Some (clean v)
    | None => None
    end.
Proof.
  unfold dict_wf, dict_keys, prune_items.
  induction d as [|[k' v'] d IH]; csimpl; [done|].
  intros [Hk' Hd]%NoDup_cons.
  destruct (decide (k = k')) as [->|Hne].
  - destruct (is_empty (clean v')); csimpl; [|by rewrite decide_True].
    apply dict_get_None. intros Hin. apply Hk'.
    by apply (prune_items_keys clean is_empty d) in Hin.
  - destruct (is_empty (clean v')); csimpl; [by apply IH|].
    rewrite decide_False by done. by apply IH.
Qed.

Lemma prune_items_sublist {V} (clean : V → V) (is_empty : V → bool)
    (d : dict string V) :
  dict_keys (prune_items clean is_empty d) `sublist_of` dict_keys d.
Proof.
  unfold dict_keys, prune_items.
  induction d as [|[k v] d IH]; csimpl; [done|].
  destruct (is_empty (clean v)); csimpl.
  - by apply sublist_cons.
  - by apply sublist_skip.
Qed.

Section extract_more.
Context `{PyAst}.

Lemma callable_info_names incl (body : list stmt) :
  (omap (callable_info incl) body).*1 = function_names body.
Proof.
  unfold function_names. induction body as [|s l IH]; [done|].
  destruct s; csimpl; by rewrite ?IH.
Qed.

Lemma class_info_names incl (body : list stmt) :
  (omap (class_info_of incl) body).*1 = class_names body.
Proof.
  unfold class_names. induction body as [|s l IH]; [done|].
  destruct s; csimpl; by rewrite ?IH.
Qed.

Lemma class_loop_eq incl (body : list stmt) acc :
  for_each (class_item_step incl) body acc
  = Ok (dict_assign_all (omap (callable_info incl) body) acc).
Proof.
  revert acc. induction body as [|s l IH]; intros acc; [done|].
  cbn [for_each].
  destruct s; cbn [class_item_step]; rewrite ?build_info_ok, ?bind_Ok;
    rewrite IH; done.
Qed.

Lemma module_loop_eq incl (body : list stmt) fs cs :
  for_each (module_item_step incl) body
    {| functions := Some fs; classes := Some cs |}
  = Ok {| functions := Some (dict_assign_all (omap (callable_info incl) body) fs);
          classes := Some (dict_assign_all (omap (class_info_of incl) body) cs) |}.
Proof.
  revert fs cs. induction body as [|s l IH]; intros fs cs; [done|].
  cbn [for_each].
  destruct s; cbn [module_item_step functions classes getitem];
    rewrite ?build_info_ok, ?class_loop_eq, ?bind_Ok;
    cbn [functions classes getitem]; rewrite ?bind_Ok;
    rewrite IH; try done.
  by destruct incl.
Qed.

Lemma extract_module_unpruned (body : list stmt) incl :
  extract_module false body incl
  = Ok {| functions := Some (dict_assign_all (omap (callable_info incl) body) []);
          classes := Some (dict_assign_all (omap (class_info_of incl) body) []) |}.
Proof. unfold extract_module. by rewrite module_loop_eq. Qed.

Lemma extract_module_pruned (body : list stmt) incl :
  extract_module true body incl
  = (mi ← extract_module false body incl; prune_empty_items mi).
Proof.
  unfold extract_module.
  by destruct (for_each (module_item_step incl) body _).
Qed.

Lemma callable_info_signature incl (body : list stmt) :
  Forall (λ kv : string * func_info, is_Some (signature kv.2))
         (omap (callable_info incl) body).
Proof.
  induction body as [|s l IH]; [done|].
  destruct s; csimpl; try done; constructor; done.
Qed.

Lemma collected_signatures incl (body : list stmt) :
  Forall (λ kv : string * func_info, is_Some (signature kv.2))
         (dict_assign_all (omap (callable_info incl) body) []).
Proof.
  apply dict_assign_all_Forall; [done | done | apply callable_info_signature].
Qed.

(** An entry with a signature survives the pruning loop. *)
Lemma clean_callables_signed (d : dict string func_info) :
  Forall (λ kv : string * func_info, is_Some (signature kv.2)) d →
  clean_callables d = (λ kv, (kv.1, del_empty_docstring kv.2)) <$> d.
Proof.
  unfold clean_callables, prune_items.
  induction 1 as [|[k [sg doc]] d [s Hs] Hd IH]; csimpl; [done|].
  simpl in Hs. subst sg. rewrite IH. by destruct doc as [[|c r]|].
Qed.

Lemma unpruned_wf incl (body : list stmt) :
  wf_module
    {| functions := Some (dict_assign_all (omap (callable_info incl) body) []);
       classes := Some (dict_assign_all (omap (class_info_of incl) body) []) |}.
Proof.
  split; simpl; intros l [= <-].
  - apply dict_assign_all_wf, NoDup_nil_2.
  - split; [apply dict_assign_all_wf, NoDup_nil_2|].
    apply dict_assign_all_Forall; [done | done |].
    induction body as [|s l IH]; [done|].
    destruct s; csimpl; try done. constructor; [|done].
    intros ms. simpl. intros [= <-]. apply dict_assign_all_wf, NoDup_nil_2.
Qed.
End extract_more.

(** ** The extractor: what the report holds *)

Section extract_lookup.
Context `{PyAst}.

Lemma function_lookup (re incl : bool) (pre post : list stmt) (s : stmt)
    (name : string) (info : func_info) :
  callable_info incl s = Some (name, info) →
  name ∉ function_names post →
  ∃ mi fs,
    extract_module re (pre ++ s :: post) incl = Ok mi ∧
    functions mi = Some fs ∧
    dict_get name fs = Some (if re then del_empty_docstring info else info).
Proof.
  intros Hs Hpost.
  set (fs0 := dict_assign_all (omap (callable_info incl) (pre ++ s :: post)) []).
  assert (dict_get name fs0 = Some info) as Hget.
  { unfold fs0. rewrite omap_app. csimpl. rewrite Hs. csimpl.
    apply dict_assign_all_get_last. by rewrite callable_info_names. }
  destruct re.
  - rewrite extract_module_pruned, extract_module_unpruned, bind_Ok.
    erewrite prune_empty_items_ok; [|apply unpruned_wf|done|done].
    fold fs0. eexists _, (clean_callables fs0). split; [done|]. simpl.
    assert (dict_is_empty fs0 = false) as ->
      by (clearbody fs0; by destruct fs0).
    split; [done|].
    unfold clean_callables. rewrite dict_get_prune_items, Hget.
    + pose proof (collected_signatures incl (pre ++ s :: post)) as Hsig.
      fold fs0 in Hsig. rewrite Forall_forall in Hsig.
      destruct (Hsig (name, info) (dict_get_elem _ _ _ Hget)) as [sg Hsg].
      simpl in Hsg. destruct info as [sg' [[|c r]|]]; simpl in *; by subst.
    + unfold fs0. apply dict_assign_all_wf, NoDup_nil_2.
  - rewrite extract_module_unpruned. fold fs0. by eexists _, _.
Qed.
End extract_lookup.


Section extract_extras.
Context `{PyAst}.

(** X1. Without pruning the report always has both top-level keys; the
    keys of 'functions' are the names of the top-level function and async
    function declarations and the keys of 'classes' the names of the
    top-level classes, each once, and in source order when no name is
    declared twice. *)
Theorem unpruned_report_keys (body : list stmt) (incl : bool) :
  ∃ fs cs,
    extract_module false body incl
      = Ok {| functions := Some fs; classes := Some cs |} ∧
    NoDup (dict_keys fs) ∧ NoDup (dict_keys cs) ∧
    (∀ k, k ∈ dict_keys fs ↔ k ∈ function_names body) ∧
    (∀ k, k ∈ dict_keys cs ↔ k ∈ class_names body) ∧
    (NoDup (function_names body) → dict_keys fs = function_names body) ∧
    (NoDup (class_names body) → dict_keys cs = class_names body).
Proof.
  eexists _, _. split; [apply extract_module_unpruned|].
  split; [apply dict_assign_all_wf, NoDup_nil_2|].
  split; [apply dict_assign_all_wf, NoDup_nil_2|].
  split; [|split; [|split]].
  - intros k. rewrite dict_assign_all_keys, callable_info_names.
    unfold dict_keys. set_solver.
  - intros k. rewrite dict_assign_all_keys, class_info_names.
    unfold dict_keys. set_solver.
  - intros Hnd. rewrite dict_assign_all_distinct.
    + apply callable_info_names.
    + by rewrite callable_info_names.
  - intros Hnd. rewrite dict_assign_all_distinct.
    + apply class_info_names.
    + by rewrite class_info_names.
Qed.

(** X2. When a module declares a function name several times, the report
    holds the entry of the last declaration, sync or async: its
    signature and, if asked for, its docstring, with an empty docstring
    removed when pruning is on. *)
Theorem last_function_wins (re incl : bool) (pre post : list stmt)
    (name : string) (fa : arguments) (b : list stmt) (ret : option expr)
    (is_async : bool) :
  name ∉ function_names post →
  ∃ info mi fs,
    build_info fa ret is_async b incl = Ok info ∧
    extract_module re
      (pre ++ (if is_async then AsyncFunctionDef name fa b ret
               else FunctionDef name fa b ret) :: post) incl = Ok mi ∧
    functions mi = Some fs ∧
    dict_get name fs = Some (if re then del_empty_docstring info else info).
Proof.
  intros Hpost. eexists. rewrite build_info_ok.
  edestruct (function_lookup re incl pre post
               (if is_async then AsyncFunctionDef name fa b ret
                else FunctionDef name fa b ret) name)
    as (mi & fs & Hmi & Hfs & Hget); [by destruct is_async | done |].
  exists mi, fs. split; [reflexivity|]. split; [done|].
  split; [done|]. destruct is_async; exact Hget.
Qed.

End extract_extras.

Section pruned_report.
Context `{PyAst}.

Lemma class_entries_signed incl (body : list stmt) :
  Forall (λ kv : string * class_entry,
            ∀ ms, methods kv.2 = Some ms →
                  dict_wf ms ∧
                  Forall (λ kv' : string * func_info,
                            is_Some (signature kv'.2)) ms)
         (dict_assign_all (omap (class_info_of incl) body) []).
Proof.
  apply dict_assign_all_Forall; [done | done |].
  induction body as [|s l IH]; [done|].
  destruct s; csimpl; try done. constructor; [|done].
  intros ms. simpl. intros [= <-].
  split; [apply dict_assign_all_wf, NoDup_nil_2 | apply collected_signatures].
Qed.

Lemma extract_module_pruned_eq (body : list stmt) incl :
  extract_module true body incl
  = Ok {| functions :=
            if dict_is_empty (dict_assign_all (omap (callable_info incl) body) [])
            then None
            else Some (clean_callables
                         (dict_assign_all (omap (callable_info incl) body) []));
          classes :=
            if dict_is_empty (dict_assign_all (omap (class_info_of incl) body) [])
            then None
            else Some (clean_classes
                         (dict_assign_all (omap (class_info_of incl) body) [])) |}.
Proof.
  rewrite extract_module_pruned, extract_module_unpruned, bind_Ok.
  by erewrite prune_empty_items_ok; [|apply unpruned_wf|done|done].
Qed.

(** X4. With docstrings switched off no entry of the report carries a
    docstring field, for functions, classes and methods alike, with or
    without pruning. *)
Theorem no_docstrings_when_disabled (re : bool) (body : list stmt) :
  ∃ mi,
    extract_module re body false = Ok mi ∧
    (∀ fs, functions mi = Some fs →
           Forall (λ kv : string * func_info, docstring kv.2 = None) fs) ∧
    (∀ cs, classes mi = Some cs →
           Forall (λ kv : string * class_entry,
                     class_docstring kv.2 = None ∧
                     ∀ ms, methods kv.2 = Some ms →
                           Forall (λ kv' : string * func_info,
                                     docstring kv'.2 = None) ms) cs).
Proof.
  set (Pf := λ kv : string * func_info, docstring kv.2 = None).
  set (Pc := λ kv : string * class_entry,
               class_docstring kv.2 = None ∧
               ∀ ms, methods kv.2 = Some ms → Forall Pf ms).
  assert (∀ l : list stmt, Forall Pf (omap (callable_info false) l)) as Hf0.
  { induction l as [|s l IH]; [done|].
    destruct s; csimpl; try done; constructor; done. }
  assert (∀ l : list stmt,
            Forall Pf (dict_assign_all (omap (callable_info false) l) []))
    as Hf by (intros; by apply dict_assign_all_Forall).
  assert (Forall Pc (dict_assign_all (omap (class_info_of false) body) []))
    as Hc.
  { apply dict_assign_all_Forall; [done | done |].
    induction body as [|s l IH]; [done|].
    destruct s; csimpl; try done. constructor; [|done].
    split; [done|]. simpl. intros ms [= <-]. apply Hf. }
  assert (∀ d, Forall Pf d → Forall Pf (clean_callables d)) as Hcf.
  { intros d Hd.
    apply (prune_items_Forall (λ v, docstring v = None)); [|done].
    intros [sg doc]; simpl. by intros ->. }
  destruct re.
  - eexists. split; [apply extract_module_pruned_eq|]. simpl. split.
    + intros fs. destruct (dict_is_empty _); [done|]. intros [= <-].
      apply Hcf, Hf.
    + intros cs. destruct (dict_is_empty _); [done|]. intros [= <-].
      apply (prune_items_Forall
               (λ e, class_docstring e = None ∧
                     ∀ ms, methods e = Some ms → Forall Pf ms)); [|done].
      intros [ms doc] [Hdoc Hms]. simpl in *. subst doc.
      unfold clean_class. simpl. destruct ms as [ms|]; [|done].
      specialize (Hcf ms (Hms ms eq_refl)).
      destruct (clean_callables ms) eqn:Hcm; simpl; [done|].
      split; [done|]. by intros ? [= <-].
  - eexists. split; [apply extract_module_unpruned|]. simpl.
    split; intros ? [= <-]; [apply Hf | apply Hc].
Qed.


(** X6. A class that has at least one method keeps all of them through
    pruning, in order and with their signatures; only empty docstring
    fields, of the class and of the methods, are deleted. *)
Theorem pruning_keeps_methods (body : list stmt) (incl : bool)
    (u : module_info) (cs : dict string class_entry) (cname : string)
    (entry : class_entry) (ms : dict string func_info) :
  extract_module false body incl = Ok u →
  classes u = Some cs →
  dict_get cname cs = Some entry →
  methods entry = Some ms →
  ms ≠ [] →
  ∃ r cs',
    extract_module true body incl = Ok r ∧
    classes r = Some cs' ∧
    dict_get cname cs'
    = Some {| methods := Some ((λ kv, (kv.1, del_empty_docstring kv.2)) <$> ms);
              class_docstring := match class_docstring entry with
                                 | Some "" => None
                                 | other => other
                                 end |}.
Proof.
  rewrite extract_module_unpruned. intros [= <-]. simpl. intros [= <-].
  intros Hget Hms Hne.
  set (cs0 := dict_assign_all (omap (class_info_of incl) body) []) in *.
  pose proof (class_entries_signed incl body) as Hsig. fold cs0 in Hsig.
  rewrite Forall_forall in Hsig.
  destruct (Hsig (cname, entry) (dict_get_elem _ _ _ Hget) ms Hms)
    as [Hwf Hsigned].
  assert (clean_class entry
          = {| methods := Some ((λ kv, (kv.1, del_empty_docstring kv.2)) <$> ms);
               class_docstring := match class_docstring entry with
                                  | Some "" => None
                                  | other => other
                                  end |}) as Hclean.
  { unfold clean_class. rewrite Hms, clean_callables_signed by done.
    destruct ms; [done|]. by csimpl. }
  eexists _, (clean_classes cs0). split; [apply extract_module_pruned_eq|].
  simpl. fold cs0.
  assert (dict_is_empty cs0 = false) as ->.
  { clearbody cs0. destruct cs0; [discriminate Hget | done]. }
  split; [done|].
  unfold clean_classes. rewrite dict_get_prune_items, Hget.
  - by rewrite Hclean.
  - apply dict_assign_all_wf, NoDup_nil_2.
Qed.

Lemma pruned_top_level_keys (body : list stmt) (incl : bool) :
  ∃ r,
    extract_module true body incl = Ok r ∧
    (functions r = None ↔ function_names body = []) ∧
    (classes r = None ↔ class_names body = []).
Proof.
  eexists. split; [apply extract_module_pruned_eq|]. simpl.
  rewrite <- (callable_info_names incl), <- (class_info_names incl).
  split.
  - destruct (omap (callable_info incl) body) as [|kv l] eqn:Hl; [done|].
    pose proof (dict_assign_all_nonempty (kv :: l) []) as Hne.
    destruct (dict_assign_all (kv :: l) []); [by destruct Hne|]. done.
  - destruct (omap (class_info_of incl) body) as [|kv l] eqn:Hl; [done|].
    pose proof (dict_assign_all_nonempty (kv :: l) []) as Hne.
    destruct (dict_assign_all (kv :: l) []); [by destruct Hne|]. done.
Qed.

(** X7. After pruning the report has a 'functions' key exactly when the
    module declares a top-level function or async function, and a 'classes'
    key exactly when it declares a top-level class. *)
Theorem top_level_keys_after_pruning (body : list stmt) (incl : bool) :
  ∃ r,
    extract_module true body incl = Ok r ∧
    (functions r = None ↔ function_names body = []) ∧
    (classes r = None ↔ class_names body = []).
Proof. apply pruned_top_level_keys. Qed.
End pruned_report.

(** ** The pruning block on any report *)

Lemma prune_items_Forall_kept {V} (Q : V → Prop) (clean : V → V) is_empty
    (d : dict string V) :
  (∀ v, is_empty (clean v) = false → Q (clean v)) →
  Forall (λ kv, Q kv.2) (prune_items clean is_empty d).
Proof.
  intros HQ. unfold prune_items.
  induction d as [|[k v] d IH]; csimpl; [done|].
  destruct (is_empty (clean v)) eqn:He; csimpl; [done|].
  constructor; [by apply HQ | done].
Qed.

(** X8. The pruning block returns exactly when the report has both its
    'functions' and its 'classes' key; otherwise it raises KeyError, and it
    raises nothing else. *)
Theorem prune_returns_iff_both_keys (mi : module_info) :
  wf_module mi →
  ((∃ r, prune_empty_items mi = Ok r)
   ↔ is_Some (functions mi) ∧ is_Some (classes mi)) ∧
  (∀ e, prune_empty_items mi = Raise e → e = KeyError).
Proof.
  intros Hwf. split; [split|].
  - intros [r Hr].
    destruct (prune_empty_items_inv _ _ Hr) as (fs & cs & -> & ->). eauto.
  - intros [[fs Hfs] [cs Hcs]]. eexists. by apply prune_empty_items_ok.
  - intros e He. destruct mi as [[fs|] [cs|]].
    + erewrite prune_empty_items_ok in He by done. discriminate He.
    + rewrite prune_empty_items_KeyError in He by (simpl; auto). congruence.
    + rewrite prune_empty_items_KeyError in He by (simpl; auto). congruence.
    + rewrite prune_empty_items_KeyError in He by (simpl; auto). congruence.
Qed.

(** X9. Whatever report the pruning block ran on, every entry it leaves
    is clean: no function, method or class entry is an empty dict, no
    docstring field holds the empty string, and no class holds an empty
    'methods' mapping. *)
Theorem pruned_entries_clean (mi r : module_info) :
  wf_module mi →
  prune_empty_items mi = Ok r →
  (∀ fs, functions r = Some fs →
     Forall (λ kv : string * func_info,
               docstring kv.2 ≠ Some "" ∧ func_info_is_empty kv.2 = false) fs) ∧
  (∀ cs, classes r = Some cs →
     Forall (λ kv : string * class_entry,
               class_docstring kv.2 ≠ Some "" ∧
               methods kv.2 ≠ Some [] ∧
               class_entry_is_empty kv.2 = false ∧
               ∀ ms, methods kv.2 = Some ms →
                 Forall (λ kv' : string * func_info,
                           docstring kv'.2 ≠ Some "" ∧
                           func_info_is_empty kv'.2 = false) ms) cs).
Proof.
  intros Hwf Hr.
  destruct (prune_empty_items_inv _ _ Hr) as (fs0 & cs0 & Hfs0 & Hcs0).
  rewrite (prune_empty_items_ok mi fs0 cs0) in Hr by done.
  injection Hr as <-. simpl.
  assert (∀ d, Forall (λ kv : string * func_info,
                         docstring kv.2 ≠ Some "" ∧
                         func_info_is_empty kv.2 = false)
                      (clean_callables d)) as Hf.
  { intros d.
    apply (prune_items_Forall_kept
             (λ v, docstring v ≠ Some "" ∧ func_info_is_empty v = false)).
    intros [sg [[|c s]|]] He; by split. }
  split.
  - intros fs. destruct (dict_is_empty fs0); [done|]. intros [= <-]. apply Hf.
  - intros cs. destruct (dict_is_empty cs0); [done|]. intros [= <-].
    apply (prune_items_Forall_kept
             (λ e, class_docstring e ≠ Some "" ∧ methods e ≠ Some [] ∧
                   class_entry_is_empty e = false ∧
                   ∀ ms, methods e = Some ms →
                     Forall (λ kv' : string * func_info,
                               docstring kv'.2 ≠ Some "" ∧
                               func_info_is_empty kv'.2 = false) ms)).
    intros [ms doc] He. split_and!; [| | done |].
    + unfold clean_class. simpl.
      destruct ms as [ms|]; [destruct (clean_callables ms)|];
        by destruct doc as [[|c s]|].
    + unfold clean_class. simpl.
      destruct ms as [ms|]; [destruct (clean_callables ms)|]; done.
    + intros ms'. unfold clean_class. simpl.
      destruct ms as [ms|]; [|done].
      pose proof (Hf ms) as Hms.
      destruct (clean_callables ms); simpl; [done|]. by intros [= <-].
Qed.

(** ** The batch driver *)

Section driver_facts.
Context `{PyAst} `{!Codebase}.

Lemma report_entry_cases re root incl file_path :
  ∃ mi,
    extract_signatures_with_ast re file_path incl = Ok mi ∧
    report_entry re root incl file_path
    = if negb (module_info_is_empty mi) || negb re
      then key ← relpath file_path root; mret (Some (key, mi))
      else mret None.
Proof.
  destruct (extract_signatures_with_ast_ok re file_path incl) as (mi & Hmi).
  exists mi. split; [done|]. unfold report_entry. by rewrite Hmi.
Qed.

Lemma report_entry_Some re root incl file_path key mi :
  report_entry re root incl file_path = Ok (Some (key, mi)) →
  extract_signatures_with_ast re file_path incl = Ok mi ∧
  relpath file_path root = Ok key ∧
  negb (module_info_is_empty mi) || negb re = true.
Proof.
  destruct (report_entry_cases re root incl file_path) as (mi' & Hmi & ->).
  destruct (negb (module_info_is_empty mi') || negb re) eqn:Hkeep; [|done].
  destruct (relpath file_path root) as [k|x]; simpl; [|done].
  by intros [= -> ->].
Qed.

Lemma report_entry_Raise re root incl file_path x :
  report_entry re root incl file_path = Raise x →
  relpath file_path root = Raise x.
Proof.
  destruct (report_entry_cases re root incl file_path) as (mi & Hmi & ->).
  destruct (negb (module_info_is_empty mi) || negb re); [|done].
  destruct (relpath file_path root) as [k|y]; [done|]. by intros [= ->].
Qed.

Lemma report_entry_Ok re root incl file_path rel :
  relpath file_path root = Ok rel →
  ∃ e, report_entry re root incl file_path = Ok e.
Proof.
  intros Hrel.
  destruct (report_entry_cases re root incl file_path) as (mi & Hmi & ->).
  rewrite Hrel. destruct (negb (module_info_is_empty mi) || negb re);
    by eexists.
Qed.

Lemma report_step_eq re root incl report file_path :
  report_step re root incl report file_path
  = (e ← report_entry re root incl file_path;
     mret (match e with
           | Some (key, mi) => dict_set key mi report
           | None => report
           end)).
Proof.
  unfold report_step, report_entry.
  destruct (extract_signatures_with_ast re file_path incl) as [mi|]; [|done].
  simpl. destruct (negb (module_info_is_empty mi) || negb re); [|done].
  by destruct (relpath file_path root).
Qed.

(** The loop when every entry can be computed. *)
Lemma report_loop_entries re root incl (files : list string) es report :
  Forall2 (λ f e, report_entry re root incl f = Ok e) files es →
  for_each (report_step re root incl) files report
  = Ok (dict_assign_all (omap id es) report).
Proof.
  intros Hes. revert report.
  induction Hes as [|f e files es Hf Hes IH]; intros report; [done|].
  cbn [for_each]. rewrite report_step_eq, Hf, !bind_Ok, IH. csimpl.
  by destruct e as [[key mi]|].
Qed.

Lemma report_loop_Ok re root incl (files : list string) report report' :
  for_each (report_step re root incl) files report = Ok report' →
  ∃ es, Forall2 (λ f e, report_entry re root incl f = Ok e) files es ∧
        report' = dict_assign_all (omap id es) report.
Proof.
  revert report. induction files as [|f files IH]; intros report.
  - intros [= <-]. by exists [].
  - cbn [for_each]. rewrite report_step_eq.
    destruct (report_entry re root incl f) as [e|x] eqn:He; [|done].
    rewrite !bind_Ok. intros Hrest.
    destruct (IH _ Hrest) as (es & Hes & ->).
    exists (e :: es). split; [by constructor|].
    csimpl. by destruct e as [[key mi]|].
Qed.

Lemma report_loop_Raise re root incl (files : list string) report x :
  for_each (report_step re root incl) files report = Raise x →
  ∃ f, f ∈ files ∧ relpath f root = Raise x.
Proof.
  revert report. induction files as [|f files IH]; intros report; [done|].
  cbn [for_each]. rewrite report_step_eq.
  destruct (report_entry re root incl f) as [e|y] eqn:He.
  - rewrite !bind_Ok. intros Hrest.
    destruct (IH _ Hrest) as (g & Hg & Hx). exists g. split; [set_solver|done].
  - intros [= ->]. exists f. split; [set_solver|].
    by eapply report_entry_Raise.
Qed.

Lemma entries_exist re root incl (files : list string) :
  (∀ f, f ∈ files → ∃ rel, relpath f root = Ok rel) →
  ∃ es, Forall2 (λ f e, report_entry re root incl f = Ok e) files es.
Proof.
  induction files as [|f files IH]; intros Hrel; [by exists []|].
  destruct (Hrel f) as [rel Hf]; [set_solver|].
  destruct (report_entry_Ok re root incl f rel Hf) as [e He].
  destruct IH as [es Hes]; [intros; apply Hrel; set_solver|].
  exists (e :: es). by constructor.
Qed.

Lemma entries_keys re root incl (files : list string) es k :
  Forall2 (λ f e, report_entry re root incl f = Ok e) files es →
  k ∈ (omap id es).*1 →
  ∃ f, f ∈ files ∧ relpath f root = Ok k.
Proof.
  induction 1 as [|f e files es Hf Hes IH]; csimpl; [set_solver|].
  destruct e as [[key mi]|]; csimpl.
  - intros [->|Hin]%elem_of_cons.
    + exists f. split; [set_solver|].
      by destruct (report_entry_Some _ _ _ _ _ _ Hf) as (_ & ? & _).
    + destruct (IH Hin) as (g & Hg & Hk). exists g. split; [set_solver|done].
  - intros Hin. destruct (IH Hin) as (g & Hg & Hk).
    exists g. split; [set_solver|done].
Qed.

Lemma entries_nonempty root incl (files : list string) es :
  Forall2 (λ f e, report_entry true root incl f = Ok e) files es →
  Forall (λ kv : string * module_info, module_info_is_empty kv.2 = false)
         (omap id es).
Proof.
  induction 1 as [|f e files es Hf Hes IH]; csimpl; [done|].
  destruct e as [[key mi]|]; csimpl; [|done].
  constructor; [|done].
  destruct (report_entry_Some _ _ _ _ _ _ Hf) as (_ & _ & Hkeep).
  simpl. by destruct (module_info_is_empty mi).
Qed.

Lemma entries_unpruned root incl (files : list string) rels :
  relpaths_are root files rels →
  ∃ es, Forall2 (λ f e, report_entry false root incl f = Ok e) files es ∧
        (omap id es).*1 = rels.
Proof.
  induction 1 as [|f rel files rels Hf Hrels (es & Hes & Hk)];
    [by exists []|].
  destruct (report_entry_cases false root incl f) as (mi & Hmi & He).
  rewrite orb_true_r, Hf in He.
  exists (Some (rel, mi) :: es). split; [by constructor|].
  csimpl. by rewrite Hk.
Qed.

Lemma entries_unpruned_inv root incl (files : list string) es :
  Forall2 (λ f e, report_entry false root incl f = Ok e) files es →
  ∃ rels, relpaths_are root files rels.
Proof.
  unfold relpaths_are.
  induction 1 as [|f e files es Hf Hes [rels Hrels]]; [by exists []|].
  destruct (report_entry_cases false root incl f) as (mi & Hmi & He).
  rewrite orb_true_r, Hf in He.
  destruct (relpath f root) as [rel|] eqn:Hrel; [|done].
  exists (rel :: rels). by constructor.
Qed.

(** A file whose parse fails, or that declares nothing, is passed over by
    the loop when pruning is on. *)
Lemma report_step_skip root incl report file_path :
  extract_signatures_with_ast true file_path incl = Ok empty_module_info →
  report_step true root incl report file_path = Ok report.
Proof. intros Hex. unfold report_step. by rewrite Hex. Qed.

Lemma batch_skip root incl (before after : list string) file_path :
  extract_signatures_with_ast true file_path incl = Ok empty_module_info →
  extract_signatures_with_ast_method true root
      (before ++ file_path :: after) incl
    = extract_signatures_with_ast_method true root (before ++ after) incl.
Proof.
  intros Hex. unfold extract_signatures_with_ast_method.
  rewrite !for_each_app.
  destruct (for_each _ before []) as [r|x]; [|done].
  rewrite !bind_Ok. cbn [for_each]. by rewrite report_step_skip.
Qed.

(** An entry written under a path no later file maps to stays. *)
Lemma report_loop_get re root incl (files : list string) report report' k :
  for_each (report_step re root incl) files report = Ok report' →
  (∀ g, g ∈ files → relpath g root ≠ Ok k) →
  dict_get k report' = dict_get k report.
Proof.
  intros Hloop Hk.
  destruct (report_loop_Ok _ _ _ _ _ _ Hloop) as (es & Hes & ->).
  apply dict_assign_all_get_other. intros Hin.
  destruct (entries_keys _ _ _ _ _ _ Hes Hin) as (g & Hg & Hrel).
  by apply (Hk g).
Qed.
End driver_facts.

Section driver_extras.
Context `{PyAst} `{!Codebase}.

(** X10. With pruning on, a report the batch driver returns holds only
    non-empty module reports, under relative paths of files of the batch,
    no path twice.  The driver returns when [os.path.relpath] returns for
    every file, and an exception it raises is one [os.path.relpath] raised
    for a file of the batch. *)
Theorem pruned_batch_entries_nonempty (root : string)
    (files : list string) (incl : bool) :
  (∀ report,
     extract_signatures_with_ast_method true root files incl = Ok report →
     Forall (λ kv : string * module_info,
               module_info_is_empty kv.2 = false) report ∧
     NoDup (dict_keys report) ∧
     (∀ k, k ∈ dict_keys report → ∃ f, f ∈ files ∧ relpath f root = Ok k)) ∧
  ((∀ f, f ∈ files → ∃ rel, relpath f root = Ok rel) →
   ∃ report,
     extract_signatures_with_ast_method true root files incl = Ok report) ∧
  (∀ x, extract_signatures_with_ast_method true root files incl = Raise x →
        ∃ f, f ∈ files ∧ relpath f root = Raise x).
Proof.
  unfold extract_signatures_with_ast_method. split_and!.
  - intros report Hreport.
    destruct (report_loop_Ok _ _ _ _ _ _ Hreport) as (es & Hes & ->).
    split_and!.
    + apply dict_assign_all_Forall; [done | done |].
      by eapply entries_nonempty.
    + apply dict_assign_all_wf, NoDup_nil_2.
    + intros k [Hk|Hk]%dict_assign_all_keys; [set_solver|].
      by eapply entries_keys.
  - intros Hrel. destruct (entries_exist true root incl files Hrel) as [es Hes].
    eexists. by apply report_loop_entries.
  - intros x. apply report_loop_Raise.
Qed.

(** X11. With pruning off, the batch driver returns exactly when
    [os.path.relpath] returns for every file of the batch; the report then
    has an entry under each of those relative paths and under nothing
    else, and when they are pairwise distinct its keys are those paths in
    the order the files were given.  When [os.path.relpath] raises for a
    file, the driver raises that exception and returns no report. *)
Theorem unpruned_batch_keys (root : string) (files : list string)
    (incl : bool) :
  (∀ rels, relpaths_are root files rels →
     ∃ report,
       extract_signatures_with_ast_method false root files incl = Ok report ∧
       (∀ k, k ∈ dict_keys report ↔ k ∈ rels) ∧
       (NoDup rels → dict_keys report = rels)) ∧
  (∀ report,
     extract_signatures_with_ast_method false root files incl = Ok report →
     ∃ rels, relpaths_are root files rels) ∧
  (∀ before f after x,
     files = before ++ f :: after →
     (∀ g, g ∈ before → ∃ rel, relpath g root = Ok rel) →
     relpath f root = Raise x →
     extract_signatures_with_ast_method false root files incl = Raise x).
Proof.
  unfold extract_signatures_with_ast_method. split_and!.
  - intros rels Hrels.
    destruct (entries_unpruned root incl files rels Hrels) as (es & Hes & Hk).
    eexists. split; [by apply report_loop_entries|]. split.
    + intros k. rewrite dict_assign_all_keys, Hk. unfold dict_keys. set_solver.
    + intros Hnd. rewrite dict_assign_all_distinct; [done|]. by rewrite Hk.
  - intros report Hreport.
    destruct (report_loop_Ok _ _ _ _ _ _ Hreport) as (es & Hes & _).
    by eapply entries_unpruned_inv.
  - intros before f after x -> Hbefore Hf.
    destruct (entries_exist false root incl before Hbefore) as [es Hes].
    rewrite for_each_app, (report_loop_entries _ _ _ _ _ _ Hes), bind_Ok.
    cbn [for_each]. rewrite report_step_eq.
    destruct (report_entry_cases false root incl f) as (mi & _ & ->).
    by rewrite orb_true_r, Hf.
Qed.

(** X12. In a report the batch driver returns, the entry under the
    relative path of a file is what the extractor returned for that file,
    provided no later file of the batch has the same relative path.  With
    pruning on a file whose report is empty has no entry, unless an earlier
    file left one under the same path. *)
Theorem batch_entry_is_extraction (re : bool) (root : string) (incl : bool)
    (before after : list string) (file_path rel : string)
    (report : dict string module_info) :
  relpath file_path root = Ok rel →
  (∀ g, g ∈ after → relpath g root ≠ Ok rel) →
  extract_signatures_with_ast_method re root
    (before ++ file_path :: after) incl = Ok report →
  ∃ mi,
    extract_signatures_with_ast re file_path incl = Ok mi ∧
    (module_info_is_empty mi = false ∨ re = false →
     dict_get rel report = Some mi) ∧
    (module_info_is_empty mi = true → re = true →
     (∀ g, g ∈ before → relpath g root ≠ Ok rel) →
     dict_get rel report = None).
Proof.
  intros Hrel Hafter. unfold extract_signatures_with_ast_method.
  rewrite for_each_app.
  destruct (for_each _ before []) as [r0|] eqn:Hbefore; [|done].
  rewrite bind_Ok. cbn [for_each]. rewrite report_step_eq.
  destruct (report_entry_cases re root incl file_path) as (mi & Hmi & ->).
  rewrite Hrel. intros Hloop. exists mi. split; [done|]. split.
  - intros Hkeep.
    assert (negb (module_info_is_empty mi) || negb re = true) as Hk.
    { destruct Hkeep as [-> | ->]; [done | apply orb_true_r]. }
    rewrite Hk, !bind_Ok in Hloop.
    rewrite (report_loop_get _ _ _ _ _ _ _ Hloop Hafter).
    rewrite dict_get_set. by rewrite decide_True.
  - intros Hempty -> Hnone. rewrite Hempty in Hloop. simpl in Hloop.
    rewrite (report_loop_get _ _ _ _ _ _ _ Hloop Hafter).
    rewrite (report_loop_get _ _ _ _ _ _ _ Hbefore Hnone). done.
Qed.

(** X13. A file that parses but declares no top-level function or class,
    such as an empty file or one holding only imports and assignments, is
    given the report [{}] and, with pruning on, no entry in the batch
    report. *)
Theorem file_without_declarations_omitted (root : string) (incl : bool)
    (before after : list string) (file_path : string) (body : list stmt) :
  parse_file file_path = Ok body →
  function_names body = [] →
  class_names body = [] →
  extract_signatures_with_ast true file_path incl = Ok empty_module_info ∧
  extract_signatures_with_ast_method true root
      (before ++ file_path :: after) incl
    = extract_signatures_with_ast_method true root (before ++ after) incl.
Proof.
  intros Hparse Hf Hc.
  assert (extract_signatures_with_ast true file_path incl
          = Ok empty_module_info) as Hex.
  { unfold extract_signatures_with_ast. rewrite Hparse.
    destruct (pruned_top_level_keys body incl)
      as (r & -> & [_ Hfr] & [_ Hcr]).
    destruct r as [f c]. simpl in *. by rewrite Hfr, Hcr. }
  split; [done | by apply batch_skip].
Qed.
End driver_extras.

(** ** The extractor and the batch driver: claims *)


Section extract_claims.
Context `{PyAst}.




Context `{!Codebase}.

(** C5, as amended.  A file that cannot be parsed yields the empty report
    [{}], with or without pruning.  With pruning enabled it has no part
    in the batch: the outcome is the outcome for the list without that
    file, and the batch returns when [os.path.relpath] returns for the
    other files.  With pruning disabled the driver asks [os.path.relpath]
    for the file's relative path: when that returns, the path is set to
    [{}] in the report built so far and the remaining files are gone
    through from there, the entry staying in the returned report when no
    later file has that relative path; when it raises, the batch raises
    the same exception. *)
Theorem parse_failure_is_local (root : string) (incl : bool)
    (before after : list string) (file_path : string) (e : exn) :
  parse_file file_path = Raise e →
  (∀ re, extract_signatures_with_ast re file_path incl
         = Ok empty_module_info) ∧
  extract_signatures_with_ast_method true root
      (before ++ file_path :: after) incl
    = extract_signatures_with_ast_method true root (before ++ after) incl ∧
  ((∀ g, g ∈ before ++ after → ∃ rel, relpath g root = Ok rel) →
   ∃ report,
     extract_signatures_with_ast_method true root
       (before ++ file_path :: after) incl = Ok report) ∧
  extract_signatures_with_ast_method false root
      (before ++ file_path :: after) incl
    = (report0 ← extract_signatures_with_ast_method false root before incl;
       rel ← relpath file_path root;
       for_each (report_step false root incl) after
         (dict_set rel empty_module_info report0)) ∧
  (∀ rel report,
     relpath file_path root = Ok rel →
     extract_signatures_with_ast_method false root
       (before ++ file_path :: after) incl = Ok report →
     (∀ g, g ∈ after → relpath g root ≠ Ok rel) →
     dict_get rel report = Some empty_module_info) ∧
  ((∀ g, g ∈ before ++ file_path :: after → ∃ rel, relpath g root = Ok rel) →
   ∃ report,
     extract_signatures_with_ast_method false root
       (before ++ file_path :: after) incl = Ok report) ∧
  (∀ x report0,
     extract_signatures_with_ast_method false root before incl = Ok report0 →
     relpath file_path root = Raise x →
     extract_signatures_with_ast_method false root
       (before ++ file_path :: after) incl = Raise x).
Proof.
  intros Hfail.
  assert (∀ re, extract_signatures_with_ast re file_path incl
                = Ok empty_module_info) as Hex
    by (intros; by eapply extract_failure).
  assert (extract_signatures_with_ast_method false root
            (before ++ file_path :: after) incl
          = (report0 ← extract_signatures_with_ast_method false root before incl;
             rel ← relpath file_path root;
             for_each (report_step false root incl) after
               (dict_set rel empty_module_info report0))) as Hoff.
  { assert (∀ r, report_step false root incl r file_path
                 = (rel ← relpath file_path root;
                    mret (dict_set rel empty_module_info r))) as Hstep
      by (intros; unfold report_step; by rewrite Hex).
    unfold extract_signatures_with_ast_method. rewrite for_each_app.
    destruct (for_each _ before []) as [r0|x]; [|done].
    rewrite !bind_Ok. cbn [for_each]. rewrite Hstep.
    by destruct (relpath file_path root). }
  split_and!; [done | by apply batch_skip | | done | | |].
  - intros Hrel. rewrite batch_skip by done.
    destruct (entries_exist true root incl (before ++ after) Hrel) as [es Hes].
    eexists. by apply report_loop_entries.
  - intros rel report Hrel. rewrite Hoff, Hrel.
    destruct (extract_signatures_with_ast_method false root before incl)
      as [r0|]; [|done].
    rewrite !bind_Ok. intros Hloop Hafter.
    rewrite (report_loop_get _ _ _ _ _ _ _ Hloop Hafter).
    rewrite dict_get_set. by rewrite decide_True.
  - intros Hrel.
    destruct (entries_exist false root incl _ Hrel) as [es Hes].
    eexists. by apply report_loop_entries.
  - intros x report0 Hbefore Hraise. by rewrite Hoff, Hbefore, Hraise.
Qed.
End extract_claims.

(** C5 as stated fails with pruning disabled: the driver asks
    [os.path.relpath] for the relative path of the file that did not
    parse, and a ValueError it raises there ends the batch, so the files
    after it are not processed and no report is returned.  This happens
    for a file on another drive than the root, and for the empty path,
    which cannot be opened either. *)
Lemma parse_failure_aborts_unpruned_batch :
  @parse_file Sample.ast SampleFiles.windows "D:/bad.py" = Raise SyntaxError ∧
  @extract_signatures_with_ast Sample.ast SampleFiles.windows false
    "D:/bad.py" true = Ok empty_module_info ∧
  @extract_signatures_with_ast_method Sample.ast SampleFiles.windows false
    "C:/src" ["D:/bad.py"; "C:/src/b.py"] true = Raise ValueError ∧
  @extract_signatures_with_ast_method Sample.ast SampleFiles.windows false
    "C:/src" ["C:/src/b.py"] true
  = Ok [("b.py",
         {| functions := Some [("f", {| signature := Some "()";
                                        docstring := Some "" |})];
            classes := Some [] |})] ∧
  @parse_file Sample.ast SampleFiles.windows "" = Raise OtherException ∧
  @extract_signatures_with_ast_method Sample.ast SampleFiles.windows false
    "C:/src" [""; "C:/src/b.py"] true = Raise ValueError.
Proof. split_and!; reflexivity. Qed.

(** C5, as amended, at a batch of three files of which the second does
    not parse. *)
Lemma parse_failure_is_local_witness :
  @parse_file Sample.ast Sample.codebase "bad.py" = Raise SyntaxError ∧
  (∀ re, @extract_signatures_with_ast Sample.ast Sample.codebase re
           "bad.py" true = Ok empty_module_info) ∧
  @extract_signatures_with_ast_method Sample.ast Sample.codebase true "."
      (["a.py"] ++ "bad.py" :: ["b.py"]) true
    = @extract_signatures_with_ast_method Sample.ast Sample.codebase true "."
        (["a.py"] ++ ["b.py"]) true ∧
  ∃ report,
    @extract_signatures_with_ast_method Sample.ast Sample.codebase false "."
      (["a.py"] ++ "bad.py" :: ["b.py"]) true = Ok report ∧
    dict_keys report = ["a.py"; "bad.py"; "b.py"] ∧
    dict_get "bad.py" report = Some empty_module_info.
Proof.
  split; [reflexivity|].
  destruct (@parse_failure_is_local Sample.ast Sample.codebase "." true
              ["a.py"] ["b.py"] "bad.py" SyntaxError eq_refl)
    as (Hex & Hon & _ & _ & Hget & Hret & _).
  split; [exact Hex|]. split; [exact Hon|].
  destruct Hret as [report Hreport].
  { intros g Hg. apply list_elem_of_In in Hg. simpl in Hg.
    destruct Hg as [<-|[<-|[<-|[]]]]; eexists; reflexivity. }
  exists report. split; [exact Hreport|]. split.
  - injection Hreport as <-. reflexivity.
  - apply (Hget "bad.py" report eq_refl Hreport).
    intros g Hg. apply list_elem_of_singleton in Hg. subst g. discriminate.
Defined.

(** ** The renderer: further cases *)

Section renderer_extras.
Context `{PyAst}.

(** X14. The async marker and the return annotation are put around the
    parenthesised parameter list without changing it: the signature is
    ["async "], if async, then the text rendered for the same parameters
    with no return annotation and no marker, then [" -> "] and the return
    text, if there is a return annotation. *)
Theorem async_and_return_wrap (fa : arguments) (ret : option expr)
    (is_async : bool) :
  ∃ entries inner,
    signature_entries fa = Ok entries ∧
    inner = "(" +:+ String.concat ", " entries +:+ ")" ∧
    get_function_signature fa None false = Ok inner ∧
    get_function_signature fa ret is_async
      = Ok ((if is_async then "async " else "") +:+ inner
            +:+ match ret with
                | Some r => " -> " +:+ expr_text r
                | None => ""
                end).
Proof.
  eexists _, _. split; [apply signature_entries_ok|]. split; [reflexivity|].
  rewrite !get_function_signature_ok.
  unfold signature_text, async_prefix, return_suffix. split.
  - by rewrite !append_empty_r.
  - by rewrite !append_assoc.
Qed.


(** X16. Where [ast.unparse] does not exist, no expression text reaches
    the signature.  The entries are one per plain parameter, its name,
    then [=...] if it has a default and [: ...] if it is annotated; then
    the starred name of the variadic positional parameter and the
    double-starred name of the variadic keyword parameter, each followed by
    [: ...] if annotated; a return annotation is rendered as [ -> ...]. *)
Theorem without_unparse_only_placeholders (fa : arguments) (r : expr)
    (is_async : bool) :
  has_unparse = false →
  ∃ pos,
    let entries :=
      pos
      ++ match vararg fa with
         | Some v => ["*" +:+ arg v
                      +:+ match annotation v with
                          | Some _ => ": ..."
                          | None => ""
                          end]
         | None => []
         end
      ++ match kwarg fa with
         | Some k => ["**" +:+ arg k
                      +:+ match annotation k with
                          | Some _ => ": ..."
                          | None => ""
                          end]
         | None => []
         end in
    length pos = length (args fa) ∧
    (∀ j a, args fa !! j = Some a →
       pos !! j
       = Some (arg a
               +:+ (if decide (length (args fa) ≤ j + length (defaults fa))%nat
                    then "=..." else "")
               +:+ match annotation a with
                   | Some _ => ": ..."
                   | None => ""
                   end)) ∧
    signature_entries fa = Ok entries ∧
    get_function_signature fa (Some r) is_async
      = Ok ((if is_async then "async " else "")
            +:+ "(" +:+ String.concat ", " entries +:+ ")" +:+ " -> ...") ∧
    get_function_signature fa None is_async
      = Ok ((if is_async then "async " else "")
            +:+ "(" +:+ String.concat ", " entries +:+ ")").
Proof.
  intros Hno.
  assert (∀ e, expr_text e = "...") as Htext
    by (intros; unfold expr_text; by rewrite Hno).
  assert (∀ a, annotation_suffix a
               = match annotation a with
                 | Some _ => ": ..."
                 | None => ""
                 end) as Hann.
  { intros a. unfold annotation_suffix.
    destruct (annotation a); [by rewrite Htext | done]. }
  exists (positional_entries fa). cbv zeta.
  assert (variadic_entries fa
          = match vararg fa with
            | Some v => ["*" +:+ arg v
                         +:+ match annotation v with
                             | Some _ => ": ..."
                             | None => ""
                             end]
            | None => []
            end
            ++ match kwarg fa with
               | Some k => ["**" +:+ arg k
                            +:+ match annotation k with
                                | Some _ => ": ..."
                                | None => ""
                                end]
               | None => []
               end) as <-.
  { unfold variadic_entries, variadic_entry.
    destruct (vararg fa), (kwarg fa); by rewrite ?Hann. }
  split; [apply positional_entries_length|]. split; [|split; [|split]].
  - intros j a Ha. pose proof (lookup_lt_Some _ _ _ Ha) as Hj.
    rewrite positional_entries_lookup, Ha, rendered_default_spec. simpl.
    unfold positional_entry. rewrite Hann.
    f_equal. f_equal. f_equal.
    case_decide as Hd; case_decide as Hd'; try lia; [|done].
    destruct (lookup_lt_is_Some_2 (defaults fa)
                (j + length (defaults fa) - length (args fa))%nat)
      as [d ->]; [lia|].
    unfold default_suffix. by rewrite Htext.
  - apply signature_entries_ok.
  - rewrite get_function_signature_ok.
    unfold signature_text, async_prefix, return_suffix. by rewrite Htext.
  - rewrite get_function_signature_ok.
    unfold signature_text, async_prefix, return_suffix.
    by rewrite !append_empty_r.
Qed.

(** X17. A callable with no plain positional parameter, no [*name] and
    no [**name] is rendered with an empty parameter list, whatever
    positional-only and keyword-only parameters and defaults it declares. *)
Theorem nothing_to_render (fa : arguments) (ret : option expr)
    (is_async : bool) :
  args fa = [] → vararg fa = None → kwarg fa = None →
  get_function_signature fa ret is_async
  = Ok ((if is_async then "async " else "") +:+ "()"
        +:+ match ret with
            | Some r => " -> " +:+ expr_text r
            | None => ""
            end).
Proof.
  intros Ha Hv Hk. rewrite get_function_signature_ok.
  unfold signature_text, positional_entries, variadic_entries,
    async_prefix, return_suffix.
  rewrite Ha, Hv, Hk. reflexivity.
Qed.
End renderer_extras.

(** ** get_python_files and main *)

Lemma endswith_spec (s suffix : string) :
  endswith s suffix = true ↔ ∃ p, s = p +:+ suffix.
Proof.
  induction s as [|c s IH].
  - cbn [endswith]. destruct (String.eqb_spec "" suffix) as [<-|Hne].
    + split; [by exists "" | done].
    + split; [done|]. intros [[|c p] Hp]; [|discriminate Hp].
      by destruct Hne.
  - cbn [endswith].
    destruct (String.eqb_spec (String c s) suffix) as [<-|Hne].
    + split; [by exists "" | done].
    + rewrite IH. split.
      * intros [p ->]. by exists (String c p).
      * intros [[|c' p] Hp]; [by destruct Hne|].
        injection Hp as -> ->. by exists p.
Qed.

Section files_and_main.
Context `{PyAst} `{!Codebase} `{FileTree}.

Lemma collect_directory (root : string) (files acc : list string) :
  foldl (λ python_files file,
           if endswith file ".py"
           then python_files ++ [path_join root file]
           else python_files) acc files
  = acc ++ (path_join root
            <$> filter (λ file, endswith file ".py" = true) files).
Proof.
  revert acc. induction files as [|file files IH]; intros acc.
  - by rewrite app_nil_r.
  - cbn [foldl]. rewrite IH.
    destruct (endswith file ".py") eqn:He.
    + rewrite filter_cons_True by done. csimpl. by rewrite <- app_assoc.
    + rewrite filter_cons_False; [done|]. by rewrite He.
Qed.

Lemma get_python_files_eq (top : string) :
  get_python_files top
  = walk top ≫= λ '(root, _, files),
      path_join root <$> filter (λ file, endswith file ".py" = true) files.
Proof.
  unfold get_python_files.
  assert (∀ (l : list (string * list string * list string)) acc,
            foldl (λ python_files '(root, _, files),
                     foldl (λ python_files file,
                              if endswith file ".py"
                              then python_files ++ [path_join root file]
                              else python_files) python_files files)
                  acc l
            = acc ++ (l ≫= λ '(root, _, files),
                        path_join root
                        <$> filter (λ file, endswith file ".py" = true) files))
    as Hgen.
  { induction l as [|[[root dirs] files] l IH]; intros acc.
    - by rewrite app_nil_r.
    - cbn [foldl]. rewrite IH, collect_directory. csimpl.
      by rewrite <- app_assoc. }
  apply (Hgen (walk top) []).
Qed.

(** X18. [get_python_files] returns the joined path of a file exactly when
    some directory triple of the walk lists that file and its name ends in
    [.py]; names with any other ending, [.pyc] or [.PY] for instance, are
    left out. *)
Theorem get_python_files_spec (top p : string) :
  p ∈ get_python_files top
  ↔ ∃ root dirs files file stem,
      (root, dirs, files) ∈ walk top ∧
      file ∈ files ∧
      file = stem +:+ ".py" ∧
      p = path_join root file.
Proof.
  rewrite get_python_files_eq, list_elem_of_bind. split.
  - intros ([[root dirs] files] & Hp & Hin).
    apply list_elem_of_fmap in Hp as (file & -> & Hfile).
    apply list_elem_of_filter in Hfile as [He Hfile].
    apply endswith_spec in He as [stem ->].
    by exists root, dirs, files, (stem +:+ ".py"), stem.
  - intros (root & dirs & files & file & stem & Hin & Hfile & -> & ->).
    exists (root, dirs, files). split; [|done].
    apply list_elem_of_fmap. eexists. split; [done|].
    apply list_elem_of_filter. split; [|done].
    apply endswith_spec. by exists stem.
Qed.

Context `{CommandLine}.


(** X19. How a run of [main] can end.  When [parse_args] prints the help
    text, [main] exits with code 0, and on a usage error with code 2.
    Otherwise it exits with code 1, and with no other code, in three cases
    only: the path is not a directory, no Python file is found, or the
    output cannot be written.  An exception escapes it only when
    [os.path.relpath] raises for a file that was found, whatever the files
    hold.  When it returns, the document written to the output path
    (ast_signature_output.json unless -o is given) is the batch report of
    the files found, extracted with docstrings and with pruning. *)
Theorem main_outcomes (argv : list string) :
  (parse_args argv = HelpRequested → main argv = SystemExit 0) ∧
  (parse_args argv = UsageError → main argv = SystemExit 2) ∧
  (∀ e, main argv = Uncaught e →
     ∃ codebase_path output f,
       parse_args argv = Namespace codebase_path output ∧
       f ∈ get_python_files codebase_path ∧
       relpath f codebase_path = Raise e) ∧
  (∀ code, main argv = SystemExit code →
     (parse_args argv = HelpRequested ∧ code = 0) ∨
     (parse_args argv = UsageError ∧ code = 2) ∨
     ∃ codebase_path output,
       parse_args argv = Namespace codebase_path output ∧
       code = 1 ∧
       (isdir codebase_path = false ∨
        get_python_files codebase_path = [] ∨
        ∃ report x,
          extract_signatures_with_ast_method true codebase_path
            (get_python_files codebase_path) true = Ok report ∧
          write_json (default "ast_signature_output.json" output) report
            = Raise x)) ∧
  (∀ out document, main argv = Returned out document →
     ∃ codebase_path output,
       parse_args argv = Namespace codebase_path output ∧
       out = default "ast_signature_output.json" output ∧
       isdir codebase_path = true ∧
       get_python_files codebase_path ≠ [] ∧
       extract_signatures_with_ast_method true codebase_path
         (get_python_files codebase_path) true = Ok document ∧
       write_json out document = Ok tt).
Proof.
  unfold main.
  destruct (parse_args argv) as [codebase_path output| |];
    [| split_and!; [done | done | done | intros ? [= <-]; by left | done]
     | split_and!;
         [done | done | done | intros ? [= <-]; right; by left | done]].
  destruct (isdir codebase_path) eqn:Hdir; simpl.
  2: { split_and!; [done | done | done | | done].
       intros ? [= <-]. right. right. exists codebase_path, output.
       split; [done|]. split; [done|]. by left. }
  destruct (get_python_files codebase_path) as [|f files] eqn:Hfiles.
  { split_and!; [done | done | done | | done].
    intros ? [= <-]. right. right. exists codebase_path, output.
    split; [done|]. split; [done|]. right. by left. }
  unfold REPORT_EMPTY_ITEMS, OMIT_DOCSTRINGS. simpl.
  destruct (extract_signatures_with_ast_method true codebase_path
              (f :: files) true) as [report|x] eqn:Hreport.
  - destruct (write_json _ report) as [[]|x] eqn:Hw.
    + split_and!; [done | done | done | done |].
      intros out document [= <- <-]. exists codebase_path, output.
      rewrite Hfiles. by split_and!.
    + split_and!; [done | done | done | | done].
      intros code [= <-]. right. right. exists codebase_path, output.
      split; [done|]. split; [done|]. right. right. rewrite Hfiles.
      by exists report, x.
  - split_and!; [done | done | | done | done].
    intros e [= <-].
    destruct (report_loop_Raise _ _ _ _ _ _ Hreport) as (g & Hg & Hx).
    exists codebase_path, output, g. by rewrite Hfiles.
Qed.

End files_and_main.

(** ** Worked instances of the further properties *)

(** The files [get_python_files] finds in the sample tree. *)
Example python_files_of_tree :
  @get_python_files SampleFiles.tree "src"
  = ["src/a.py"; "src/bad.py"; "src/pkg/b.py"].
Proof. reflexivity. Qed.

(** X2 at a module that declares [f] twice, the second time as
    [async def f(x)]. *)
Lemma last_function_wins_witness :
  ("f" ∉ @function_names Sample.ast [ClassDef "C" []]) ∧
  ∃ mi fs,
    @extract_module Sample.ast true
      ([Sample.def_f; ClassDef "C" [SampleFiles.def_m]; OtherStmt []]
       ++ AsyncFunctionDef "f" (Sample.params [Sample.plain "x"] []) [] None
       :: [ClassDef "C" []]) true = Ok mi ∧
    functions mi = Some fs ∧
    dict_get "f" fs
    = Some {| signature := Some "async (x)"; docstring := None |}.
Proof.
  assert ("f" ∉ @function_names Sample.ast [ClassDef "C" []]) as Hpost
    by apply not_elem_of_nil.
  split; [exact Hpost|].
  destruct (@last_function_wins Sample.ast true true
              [Sample.def_f; ClassDef "C" [SampleFiles.def_m]; OtherStmt []]
              [ClassDef "C" []] "f" (Sample.params [Sample.plain "x"] [])
              [] None true Hpost)
    as (info & mi & fs & Hinfo & Hmi & Hfs & Hget).
  exists mi, fs. split; [exact Hmi|]. split; [exact Hfs|].
  injection Hinfo as <-. exact Hget.
Defined.


(** X6 at a class whose one method has no docstring. *)
Lemma pruning_keeps_methods_witness :
  ∃ r cs',
    @extract_module Sample.ast true [ClassDef "K" [Sample.def_f]] true = Ok r ∧
    classes r = Some cs' ∧
    dict_get "K" cs'
    = Some {| methods := Some [("f", {| signature := Some "()";
                                        docstring := None |})];
              class_docstring := None |}.
Proof.
  exact (@pruning_keeps_methods Sample.ast [ClassDef "K" [Sample.def_f]] true
           {| functions := Some [];
              classes :=
                Some [("K", {| methods :=
                                 Some [("f", {| signature := Some "()";
                                                docstring := Some "" |})];
                               class_docstring := Some "" |})] |}
           [("K", {| methods := Some [("f", {| signature := Some "()";
                                               docstring := Some "" |})];
                     class_docstring := Some "" |})]
           "K"
           {| methods := Some [("f", {| signature := Some "()";
                                        docstring := Some "" |})];
              class_docstring := Some "" |}
           [("f", {| signature := Some "()"; docstring := Some "" |})]
           eq_refl eq_refl eq_refl eq_refl
           ltac:(discriminate)).
Defined.

(** X8 at a report that has lost its 'classes' key. *)
Lemma prune_returns_iff_both_keys_witness :
  wf_module {| functions := Some []; classes := None |} ∧
  ¬ ∃ r, prune_empty_items {| functions := Some []; classes := None |} = Ok r.
Proof.
  assert (wf_module {| functions := Some []; classes := None |}) as Hwf.
  { split; intros l Hl; [|discriminate Hl].
    injection Hl as <-. apply NoDup_nil_2. }
  split; [exact Hwf|].
  destruct (prune_returns_iff_both_keys _ Hwf) as [[Hto _] _].
  intros Hr. destruct (Hto Hr) as [_ [cs Hcs]]. discriminate Hcs.
Defined.

(** X9 at a report with an undocumented function and an undocumented
    class holding one documented method. *)
Lemma pruned_entries_clean_witness :
  let mi :=
    {| functions := Some [("g", {| signature := Some "(a)";
                                   docstring := Some "" |})];
       classes :=
         Some [("D", {| methods :=
                          Some [("run", {| signature := Some "(self)";
                                           docstring := Some "go" |})];
                        class_docstring := Some "" |})] |} in
  let r :=
    {| functions := Some [("g", {| signature := Some "(a)";
                                   docstring := None |})];
       classes :=
         Some [("D", {| methods :=
                          Some [("run", {| signature := Some "(self)";
                                           docstring := Some "go" |})];
                        class_docstring := None |})] |} in
  wf_module mi ∧ prune_empty_items mi = Ok r ∧
  Forall (λ kv : string * func_info,
            docstring kv.2 ≠ Some "" ∧ func_info_is_empty kv.2 = false)
         [("g", {| signature := Some "(a)"; docstring := None |})].
Proof.
  intros mi r.
  assert (wf_module mi) as Hwf.
  { split; intros l Hl; injection Hl as <-.
    - apply NoDup_singleton.
    - split; [apply NoDup_singleton|].
      apply Forall_singleton. intros ms Hms. injection Hms as <-.
      apply NoDup_singleton. }
  split; [exact Hwf|]. split; [reflexivity|].
  destruct (pruned_entries_clean mi r Hwf eq_refl) as [Hf _].
  exact (Hf _ eq_refl).
Defined.

(** X12 at the first file of a batch of two. *)
Lemma batch_entry_is_extraction_witness :
  let report :=
    [("a.py",
      {| functions := Some [("f", {| signature := Some "()";
                                     docstring := None |})];
         classes := Some [] |});
     ("b.py",
      {| functions := Some [("f", {| signature := Some "()";
                                     docstring := None |})];
         classes := None |})] in
  @relpath Sample.ast Sample.codebase "a.py" "." = Ok "a.py" ∧
  (∀ g, g ∈ ["b.py"] → @relpath Sample.ast Sample.codebase g "." ≠ Ok "a.py") ∧
  @extract_signatures_with_ast_method Sample.ast Sample.codebase true "."
    ([] ++ "a.py" :: ["b.py"]) true = Ok report ∧
  dict_get "a.py" report
  = Some {| functions := Some [("f", {| signature := Some "()";
                                        docstring := None |})];
            classes := Some [] |}.
Proof.
  intros report.
  assert (∀ g, g ∈ ["b.py"]
               → @relpath Sample.ast Sample.codebase g "." ≠ Ok "a.py")
    as Hafter.
  { intros g Hg. apply list_elem_of_singleton in Hg. subst g. discriminate. }
  split; [reflexivity|]. split; [exact Hafter|]. split; [reflexivity|].
  destruct (@batch_entry_is_extraction Sample.ast Sample.codebase true "."
              true [] ["b.py"] "a.py" "a.py" report eq_refl Hafter eq_refl)
    as (mi & Hmi & Hkept & _).
  injection Hmi as <-. apply Hkept. left. reflexivity.
Defined.

(** X13 at a file that holds an import only. *)
Lemma file_without_declarations_omitted_witness :
  @parse_file Sample.ast SampleFiles.codebase "src/init.py"
    = Ok [OtherStmt []] ∧
  @extract_signatures_with_ast_method Sample.ast SampleFiles.codebase true
      "src" (["src/b.py"] ++ "src/init.py" :: []) true
    = @extract_signatures_with_ast_method Sample.ast SampleFiles.codebase true
        "src" (["src/b.py"] ++ []) true.
Proof.
  split; [reflexivity|].
  exact (proj2 (@file_without_declarations_omitted Sample.ast
                  SampleFiles.codebase "src" true ["src/b.py"] []
                  "src/init.py" [OtherStmt []] eq_refl eq_refl eq_refl)).
Defined.


(** X16 at [def v(a: int = 1, *args: int, **kw: str) -> int] under an
    [ast] without [unparse]. *)
Lemma without_unparse_only_placeholders_witness :
  @has_unparse SampleFiles.old_ast = false ∧
  @get_function_signature SampleFiles.old_ast SampleFiles.v_args
    (Some (Sample.Name "int")) false
  = Ok "(a=...: ..., *args: ..., **kw: ...) -> ..." ∧
  @get_function_signature SampleFiles.old_ast SampleFiles.v_args None true
  = Ok "async (a=...: ..., *args: ..., **kw: ...)".
Proof.
  split; [reflexivity|].
  destruct (@without_unparse_only_placeholders SampleFiles.old_ast
              SampleFiles.v_args (Sample.Name "int") false eq_refl)
    as (pos & Hlen & Hpos & _ & Hsig & _).
  destruct (@without_unparse_only_placeholders SampleFiles.old_ast
              SampleFiles.v_args (Sample.Name "int") true eq_refl)
    as (pos' & Hlen' & Hpos' & _ & _ & Hsig').
  destruct pos as [|p [|]]; try discriminate Hlen.
  destruct pos' as [|p' [|]]; try discriminate Hlen'.
  specialize (Hpos 0%nat _ eq_refl). injection Hpos as ->.
  specialize (Hpos' 0%nat _ eq_refl). injection Hpos' as ->.
  split; [exact Hsig | exact Hsig'].
Defined.

(** X17 at [def only_kw(a, /, *, k=1)]. *)
Lemma nothing_to_render_witness :
  args SampleFiles.only_kw_args = [] ∧
  vararg SampleFiles.only_kw_args = None ∧
  kwarg SampleFiles.only_kw_args = None ∧
  @get_function_signature Sample.ast SampleFiles.only_kw_args None false
  = Ok "()".
Proof.
  split; [reflexivity|]. split; [reflexivity|]. split; [reflexivity|].
  exact (@nothing_to_render Sample.ast SampleFiles.only_kw_args None false
           eq_refl eq_refl eq_refl).
Defined.


(** A whole run over the sample tree, for the command line [src]: the
    file that does not parse is skipped and the document holds the other
    two under their paths relative to [src]. *)
Example main_on_sample_tree :
  @main Sample.ast SampleFiles.codebase SampleFiles.tree
    SampleFiles.command_line ["src"]
  = Returned "ast_signature_output.json"
      [("a.py",
        {| functions := Some [("f", {| signature := Some "async (x)";
                                       docstring := None |})];
           classes := Some [] |});
       ("pkg/b.py",
        {| functions := Some [("f", {| signature := Some "()";
                                       docstring := None |})];
           classes := None |})].
Proof. reflexivity. Qed.

(** Runs that end in the argument parser or at the first checks. *)
Example main_exits :
  @main Sample.ast SampleFiles.codebase SampleFiles.tree
    SampleFiles.command_line ["-h"] = SystemExit 0 ∧
  @main Sample.ast SampleFiles.codebase SampleFiles.tree
    SampleFiles.command_line [] = SystemExit 2 ∧
  @main Sample.ast SampleFiles.codebase SampleFiles.tree
    SampleFiles.command_line ["docs"] = SystemExit 1 ∧
  @main Sample.ast SampleFiles.codebase SampleFiles.tree
    SampleFiles.command_line ["src"; "-o"; "/readonly.json"] = SystemExit 1.
Proof. split_and!; reflexivity. Qed.
